(** * AutomatedFanfic: folder URL ingestion ([url_ingester.py])

    A shallow embedding of [FolderWatcherInfo.__init__],
    [FolderWatcherInfo.get_urls] and [folder_watcher], and the properties
    of the ingestion pipeline proved about them.

    Python code that raises and mutates is embedded in a small state and
    exception monad: a computation takes the state of the world and gives
    back either a value or the exception it raised, together with the
    state it left behind (side effects made before a raise stay).

    The first part holds the definitions: the monad, the text
    operations, the watched folder, [get_urls], [folder_watcher], the
    directory tree and [__init__].  The second part holds the
    properties, C1 to C10. *)

From Stdlib Require Import ZArith Ascii String.
From stdpp Require Import gmap strings list fin_maps.

Local Open Scope string_scope.
Local Open Scope list_scope.
Local Open Scope Z_scope.

(** ** Exceptions and the monad *)

(** The subclasses of Python's [Exception] that the modelled code can
    meet.  [BaseException]s that are not [Exception]s (KeyboardInterrupt,
    SystemExit) are the external teardown of the process and are not
    modelled. *)
Inductive exn : Type :=
  | FileNotFoundError
  | PermissionError
  | FileExistsError
  | NotADirectoryError
  | OSError
  | ValueError
  | AttributeError
  | OverflowError
  | ClassifierError.

(** [isinstance(e, OSError)]: the exceptions an [except OSError:] clause
    catches. *)
Definition is_OSError (e : exn) : bool :=
  match e with
  | FileNotFoundError | PermissionError | FileExistsError
  | NotADirectoryError | OSError => true
  | ValueError | AttributeError | OverflowError | ClassifierError => false
  end.

Inductive result (A : Type) : Type :=
  | Return (a : A)
  | Raise (e : exn).
Arguments Return {A} a.
Arguments Raise {A} e.

Definition M (S A : Type) : Type := S → result A * S.

Definition raise {S A : Type} (e : exn) : M S A := λ s, (Raise e, s).

#[global] Instance M_ret {S : Type} : MRet (M S) := λ A a s, (Return a, s).

#[global] Instance M_bind {S : Type} : MBind (M S) := λ A B k m s,
  match m s with
  | (Return a, s') => k a s'
  | (Raise e, s') => (Raise e, s')
  end.

#[global] Instance M_fmap {S : Type} : FMap (M S) := λ A B f m s,
  match m s with
  | (Return a, s') => (Return (f a), s')
  | (Raise e, s') => (Raise e, s')
  end.

(** [try: m  except Exception as e: h e] *)
Definition try_except {S A : Type} (m : M S A) (h : exn → M S A) : M S A :=
  λ s, match m s with
       | (Return a, s') => (Return a, s')
       | (Raise e, s') => h e s'
       end.

(** [for x in l: body x] *)
Fixpoint for_each {S A : Type} (l : list A) (body : A → M S unit) : M S unit :=
  match l with
  | [] => mret tt
  | x :: l' => body x ;; for_each l' body
  end.

(** ** Text *)

Module Text.

(** [str.isspace] on the code points below 256: TAB, LF, VT, FF, CR,
    FS, GS, RS, US, SPACE, NEL and NBSP.  A text is modelled as a
    [string] of such code points. *)
Definition isspace (c : ascii) : bool :=
  let n := nat_of_ascii c in
  ((9 <=? n) && (n <=? 13) || (28 <=? n) && (n <=? 32)
   || (n =? 133) || (n =? 160))%nat.

Fixpoint lstrip (s : string) : string :=
  match s with
  | EmptyString => EmptyString
  | String c s' => if isspace c then lstrip s' else s
  end.

Fixpoint rstrip (s : string) : string :=
  match s with
  | EmptyString => EmptyString
  | String c s' =>
      match rstrip s' with
      | EmptyString => if isspace c then EmptyString else String c EmptyString
      | r => String c r
      end
  end.

(** [s.strip()] *)
Definition strip (s : string) : string := rstrip (lstrip s).

(** Truthiness of a [str]: [if s:] *)
Definition truthy (s : string) : bool :=
  match s with EmptyString => false | String _ _ => true end.

(** [s.endswith(suffix)] *)
Fixpoint endswith (s suffix : string) : bool :=
  if String.eqb s suffix then true
  else match s with
       | EmptyString => false
       | String _ s' => endswith s' suffix
       end.

End Text.

(** ** The world

    The collaborators of the module ([ff_logging], the notification
    wrapper, the queues, [time.sleep]) are seen through the effects the
    watcher has on them, which the world records in a trace. *)

(** What [regex_parsing.generate_FanficInfo_from_url] builds.  The
    class is declared in [fanfic_info], outside this module; the record
    has the two attributes that [folder_watcher] reads. *)
Record FanficInfo : Type := mkFanficInfo {
  url : string;
  site : string;
}.

#[global] Instance FanficInfo_eq_dec : EqDecision FanficInfo.
Proof. solve_decision. Defined.

(** The calls to [ff_logging], one constructor per call site, with the
    values that the f-string interpolates. *)
Inductive LogMsg : Type :=
  | FoundUrl (name url : string)
  | RemovedFile (name : string)
  | ErrorProcessingFile (name : string) (e : exn)
  | StartingWatcher (folder_path : string)
  | CheckInterval (secs : Z)
  | FFNetProcessing (disabled : bool)
  | IdentifiedSite (url site : string)
  | NotificationSent (url : string)
  | QueuedUrl (site url : string)
  | NoQueueAvailable (site : string)
  | ErrorProcessingUrl (url : string) (e : exn)
  | ErrorInLoop (e : exn).

Inductive Level : Type := DEBUG | INFO.

(** The effects the watcher has on its collaborators, in the order in
    which they happen.  An effect is recorded when the call returns: a
    [send_notification] or a [put] that raises delivers nothing. *)
Inductive Event : Type :=
  | Log (lvl : Level) (msg : LogMsg)
  | Notify (title body tag : string)
  | Put (q : nat) (item : FanficInfo)
  | Sleep (secs : Z).

(** An entry of the watched folder.  [readable = false]: [open] or
    [read] raises (no permission, a directory, bytes that are not
    UTF-8); [removable = false]: [unlink] raises. *)
Record File : Type := mkFile {
  text : string;
  readable : bool;
  removable : bool;
}.

(** The watched folder holds its entries in the order in which a scan
    of the directory yields them (an order the operating system
    chooses).  [scandir_error]: scanning the folder raises an [OSError]
    that [Path.glob] lets through. *)
Record World : Type := mkWorld {
  folder : list (string * File);
  scandir_error : bool;
  trace : list Event;
}.

Definition set_folder (d : list (string * File)) (w : World) : World :=
  {| folder := d; scandir_error := scandir_error w; trace := trace w |}.

Definition emit (ev : Event) : M World unit :=
  λ w, (Return tt,
        {| folder := folder w; scandir_error := scandir_error w;
           trace := trace w ++ [ev] |}).

(** [ff_logging.log] and [ff_logging.log_debug] *)
Definition log (msg : LogMsg) : M World unit := emit (Log INFO msg).
Definition log_debug (msg : LogMsg) : M World unit := emit (Log DEBUG msg).

(** ** The folder *)

Fixpoint lookup_file (name : string) (d : list (string * File)) : option File :=
  match d with
  | [] => None
  | (n, f) :: d' => if decide (n = name) then Some f else lookup_file name d'
  end.

Definition remove_file (name : string) (d : list (string * File))
  : list (string * File) :=
  filter (λ e, e.1 ≠ name) d.

(** [open(url_file, 'r', encoding='utf-8')] and [f.read()] *)
Definition open_read (name : string) : M World string := λ w,
  match lookup_file name (folder w) with
  | None => (Raise FileNotFoundError, w)
  | Some f => if readable f then (Return (text f), w)
              else (Raise PermissionError, w)
  end.

(** [url_file.unlink()] *)
Definition unlink (name : string) : M World unit := λ w,
  match lookup_file name (folder w) with
  | None => (Raise FileNotFoundError, w)
  | Some f => if removable f then (Return tt, set_folder (remove_file name (folder w)) w)
              else (Raise PermissionError, w)
  end.

(** The pattern ["*.url"] of [Path.glob]: [*] matches any run of
    characters, a leading dot included. *)
Definition is_url_file (name : string) : bool := Text.endswith name ".url".

Definition url_files (d : list (string * File)) : list string :=
  filter (λ n, is_url_file n) d.*1.

(** [folder_path.glob("*.url")] *)
Definition glob : M World (list string) := λ w,
  if scandir_error w then (Raise OSError, w)
  else (Return (url_files (folder w)), w).

(** ** [FolderWatcherInfo.get_urls] *)

(** The local variable [urls] lives next to the world: the list that
    [urls.append] mutates keeps an appended URL when a later statement
    of the same [try] raises. *)
Definition Frame : Type := list string * World.

Definition in_world {A : Type} (m : M World A) : M Frame A := λ fr,
  match m fr.2 with
  | (r, w') => (r, (fr.1, w'))
  end.

(** [urls.append(url)] *)
Definition urls_append (u : string) : M Frame unit :=
  λ fr, (Return tt, (fr.1 ++ [u], fr.2)).

(** The body of [for url_file in url_files:] *)
Definition get_urls_file (name : string) : M Frame unit :=
  try_except
    (u ← Text.strip <$> in_world (open_read name);
     (if Text.truthy u
      then urls_append u ;; in_world (log_debug (FoundUrl name u))
      else mret tt) ;;
     in_world (unlink name) ;;
     in_world (log_debug (RemovedFile name)))
    (λ e, in_world (log_debug (ErrorProcessingFile name e))).

Definition get_urls : M World (list string) := λ w,
  match (files ← in_world glob; for_each files get_urls_file) ([], w) with
  | (Return _, (urls, w')) => (Return urls, w')
  | (Raise e, (_, w')) => (Raise e, w')
  end.

(** *** What one file contributes and whether it is consumed *)

(** The URL a file adds to [urls]: its stripped text, when the read
    succeeds and the stripped text is not empty. *)
Definition contribution (f : File) : list string :=
  if readable f && Text.truthy (Text.strip (text f))
  then [Text.strip (text f)] else [].

(** A file is consumed (unlinked) when both the read and the unlink
    succeed. *)
Definition consumed (f : File) : bool := readable f && removable f.

Definition urls_in (name : string) (d : list (string * File)) : list string :=
  from_option contribution [] (lookup_file name d).

Definition eaten (name : string) (d : list (string * File)) : bool :=
  from_option consumed false (lookup_file name d).

(** ** [folder_watcher] *)

(** The attributes that [__init__] sets. *)
Record FolderWatcherInfo : Type := mkFolderWatcherInfo {
  folder_path : string;
  sleep_time : Z;
  ffnet_disable : bool;
}.

(** The notification wrapper, by what a call of [send_notification]
    does: [None] when it returns, [Some e] when it raises [e]. *)
Record NotificationWrapper : Type := mkNotificationWrapper {
  send_notification_raises : string → string → string → option exn;
}.

Definition send_notification (n : NotificationWrapper)
    (title body tag : string) : M World unit :=
  match send_notification_raises n title body tag with
  | Some e => raise e
  | None => emit (Notify title body tag)
  end.

Module Py.

(** The values a caller can bind in the [queues] dict: a queue
    object, identified by [q] (two keys bound to the same [q] share
    one queue), or something that is no queue. *)
Inductive value : Type :=
  | PyNone
  | PyInt (z : Z)
  | PyQueue (q : nat).

(** Truthiness: [None] and [0] are falsy; a queue object defines
    neither [__bool__] nor [__len__] and is truthy. *)
Definition truthy (v : value) : bool :=
  match v with
  | PyNone => false
  | PyInt z => negb (z =? 0)
  | PyQueue _ => true
  end.

(** [d.get(k)] *)
Definition dict_get (d : gmap string value) (k : string) : value :=
  default PyNone (d !! k).

(** [v.put(item)]: the queues are unbounded and are not closed by
    their consumers, so [put] on a queue returns; any other value has
    no [put] attribute. *)
Definition put (v : value) (item : FanficInfo) : M World unit :=
  match v with
  | PyQueue q => emit (Put q item)
  | PyNone | PyInt _ => raise AttributeError
  end.

End Py.

(** The largest whole number of seconds [time.sleep] accepts: the
    duration is converted to nanoseconds in a signed 64-bit integer, and
    [9223372036 * 10^9 <= 2^63 - 1 < 9223372037 * 10^9]. *)
Definition sleep_max : Z := 9223372036.

(** [time.sleep(secs)] on an [int]: it raises [ValueError] on a negative
    number of seconds and [OverflowError] on one whose nanoseconds do
    not fit, and otherwise returns after the pause. *)
Definition sleep (secs : Z) : M World unit :=
  if secs <? 0 then raise ValueError
  else if sleep_max <? secs then raise OverflowError
  else emit (Sleep secs).

(** What the outside does to the folder while the watcher sleeps. *)
Record Change : Type := mkChange {
  new_folder : list (string * File);
  new_scandir_error : bool;
}.

Definition outside (c : Change) : M World unit := λ w,
  (Return tt, {| folder := new_folder c;
                 scandir_error := new_scandir_error c;
                 trace := trace w |}).

(** A world with an empty folder and nothing done yet. *)
Definition blank_world : World :=
  {| folder := []; scandir_error := false; trace := [] |}.

(** The events between two states of the world. *)
Definition new_events (w w' : World) : list Event :=
  drop (length (trace w)) (trace w').

Section Watcher.

(** [regex_parsing.generate_FanficInfo_from_url], which is not part of
    this module: any function from the raw URL to a [FanficInfo] or
    to the exception it raises. *)
Variable generate_FanficInfo_from_url : string → result FanficInfo.

Variable folder_info : FolderWatcherInfo.
Variable notification_info : option NotificationWrapper.
Variable queues : gmap string Py.value.

(** The body of the inner [try], for one [url] of the batch. *)
Definition dispatch_url (u : string) : M World unit :=
  fanfic ← (λ w, (generate_FanficInfo_from_url u, w));
  log_debug (IdentifiedSite u (site fanfic)) ;;
  if bool_decide (site fanfic = "ffnet") && ffnet_disable folder_info then
    match notification_info with
    | Some n =>
        send_notification n "New Fanfiction Download" (url fanfic) (site fanfic) ;;
        log (NotificationSent u)
    | None => mret tt
    end
  else
    let target_queue := Py.dict_get queues (site fanfic) in
    let target_queue :=
      if negb (Py.truthy target_queue) then Py.dict_get queues "other"
      else target_queue in
    if Py.truthy target_queue then
      Py.put target_queue fanfic ;;
      log (QueuedUrl (site fanfic) u)
    else
      log_debug (NoQueueAvailable (site fanfic)).

(** The inner [try ... except Exception as e]. *)
Definition process_url (u : string) : M World unit :=
  try_except (dispatch_url u)
             (λ e, log_debug (ErrorProcessingUrl u e)).

(** One iteration of [while True]. *)
Definition poll_cycle : M World unit :=
  try_except
    (urls ← get_urls;
     for_each urls process_url)
    (λ e, log_debug (ErrorInLoop e)) ;;
  sleep (sleep_time folder_info).

(** The first iterations of [while True], one for each element of
    [changes]: the change is what happens to the folder during the
    sleep of that iteration.  [Return tt] says that the loop is still
    running after them, [Raise e] that [e] ended it. *)
Fixpoint watch_loop (changes : list Change) : M World unit :=
  match changes with
  | [] => mret tt
  | c :: changes' => poll_cycle ;; outside c ;; watch_loop changes'
  end.

Definition folder_watcher (changes : list Change) : M World unit :=
  log (StartingWatcher (folder_path folder_info)) ;;
  log (CheckInterval (sleep_time folder_info)) ;;
  log (FFNetProcessing (ffnet_disable folder_info)) ;;
  watch_loop changes.

(** What processing [u] on its own does. *)
Definition url_events (u : string) : list Event :=
  trace (process_url u blank_world).2.

(** The one situation in which an item leaves no trace: the override
    applies and there is no notifier to call. *)
Definition silently_skipped (u : string) : bool :=
  match generate_FanficInfo_from_url u with
  | Return fanfic =>
      bool_decide (site fanfic = "ffnet") && ffnet_disable folder_info
      && bool_decide (notification_info = None)
  | Raise _ => false
  end.

End Watcher.

(** The three outcomes an item can have. *)
Definition is_notify (ev : Event) : bool :=
  match ev with Notify _ _ _ => true | _ => false end.

Definition is_put (ev : Event) : bool :=
  match ev with Put _ _ => true | _ => false end.

(** The two places where a drop is logged: no queue for the site, and
    the handler of the inner [try]. *)
Definition is_drop_log (ev : Event) : bool :=
  match ev with
  | Log _ (NoQueueAvailable _) | Log _ (ErrorProcessingUrl _ _) => true
  | _ => false
  end.


Definition count (p : Event → bool) (evs : list Event) : nat :=
  length (filter (λ ev, p ev) evs).

Definition outcomes (evs : list Event) : nat :=
  (count is_notify evs + count is_put evs + count is_drop_log evs)%nat.

(** The deliveries among some events, in their order. *)
Definition deliveries (evs : list Event) : list Event :=
  filter (λ ev, is_notify ev || is_put ev) evs.

(** A file is valid when it can be read and unlinked and its stripped
    text is not empty. *)
Definition valid_file (f : File) : bool :=
  readable f && removable f && Text.truthy (Text.strip (text f)).

(** ** [FolderWatcherInfo.__init__] *)

Module Config.

(** [config.folder_watcher]: the folder path can be missing ([None])
    or empty. *)
Record FolderWatcherConfig : Type := mkFolderWatcherConfig {
  folder_path : option string;
  sleep_time : Z;
  ffnet_disable : bool;
}.

Record AppConfig : Type := mkAppConfig {
  folder_watcher : FolderWatcherConfig;
}.

End Config.

Module Fs.

Inductive Node : Type := Directory | RegularFile.

#[global] Instance Node_eq_dec : EqDecision Node.
Proof. solve_decision. Defined.

(** What exists at each path below the root; a path is the list of
    its components, the root is [[]] and is a directory. *)
Abbreviation Tree := (gmap (list string) Node).

Fixpoint split_slash (s acc : string) : list string :=
  match s with
  | EmptyString => [acc]
  | String c s' =>
      if Ascii.eqb c "/" then acc :: split_slash s' ""
      else split_slash s' (acc +:+ String c "")
  end.

(** [Path(s)]: the components of [s], empty components and ["."]
    dropped, for paths without [".."] and symbolic links. *)
Definition Path (s : string) : list string :=
  filter (λ c, c ≠ "" ∧ c ≠ ".") (split_slash s "").

(** [p.parent] *)
Definition parent (p : list string) : list string := removelast p.

Definition exists_ (p : list string) (t : Tree) : bool :=
  bool_decide (p = []) || bool_decide (is_Some (t !! p)).

(** [p.is_dir()] *)
Definition is_dir (p : list string) (t : Tree) : bool :=
  bool_decide (p = []) || bool_decide (t !! p = Some Directory).

(** Whether the NUL character occurs in a path component. *)
Fixpoint has_nul (s : string) : bool :=
  match s with
  | EmptyString => false
  | String c s' => Ascii.eqb c "000" || has_nul s'
  end.

(** Why [os.mkdir(p)] fails whatever the tree holds: [ValueError] when
    a NUL character is embedded in [p], and otherwise the answer of the
    operating system, [refuses p], for a reason the tree does not show
    ([PermissionError] where the parent may not be written or searched,
    [OSError] for a name that is too long or a file system that is
    read-only or full); [None] when there is no such reason. *)
Definition refusal (refuses : list string → option exn) (p : list string)
  : option exn :=
  if existsb has_nul p then Some ValueError else refuses p.

(** [os.mkdir(p)] *)
Definition os_mkdir (refuses : list string → option exn) (p : list string)
  : M Tree unit := λ t,
  match refusal refuses p with
  | Some e => (Raise e, t)
  | None =>
      if negb (exists_ (parent p) t) then (Raise FileNotFoundError, t)
      else if negb (is_dir (parent p) t) then (Raise NotADirectoryError, t)
      else if exists_ p t then (Raise FileExistsError, t)
      else (Return tt, <[p := Directory]> t)
  end.

(** The [except OSError:] clause of [Path.mkdir]: the error is dropped
    when [exist_ok] holds and [p] is a directory, and raised again
    otherwise; an exception that is no [OSError] is not caught. *)
Definition except_OSError (exist_ok : bool) (p : list string) (e : exn)
  : M Tree unit := λ t,
  if is_OSError e then
    if negb exist_ok || negb (is_dir p t) then (Raise e, t) else (Return tt, t)
  else (Raise e, t).

(** [p.mkdir(parents=False, exist_ok=exist_ok)] *)
Definition mkdir_leaf (refuses : list string → option exn) (exist_ok : bool)
  (p : list string) : M Tree unit :=
  try_except (os_mkdir refuses p)
    (λ e, match e with
          | FileNotFoundError => raise e
          | _ => except_OSError exist_ok p e
          end).

(** [p.mkdir(parents=True, exist_ok=True)], by recursion on the path
    read from its last component: [rp] is [p] reversed. *)
Fixpoint mkdir_parents (refuses : list string → option exn)
  (rp : list string) : M Tree unit :=
  try_except (os_mkdir refuses (rev rp))
    (λ e, match e with
          | FileNotFoundError =>
              match rp with
              | [] => raise e
              | _ :: rp' =>
                  mkdir_parents refuses rp' ;; mkdir_leaf refuses true (rev rp)
              end
          | _ => except_OSError true (rev rp) e
          end).

Definition mkdir (refuses : list string → option exn) (p : list string)
  : M Tree unit := mkdir_parents refuses (rev p).

(** The path itself and the directories above it, the root left out. *)
Fixpoint ancestors_r (rp : list string) : list (list string) :=
  match rp with
  | [] => []
  | _ :: rp' => rev rp :: ancestors_r rp'
  end.

Definition ancestors (p : list string) : list (list string) :=
  ancestors_r (rev p).

(** Every entry lies in a directory. *)
Definition well_formed (t : Tree) : Prop :=
  map_Forall (λ p _, is_dir (parent p) t = true) t.

(** [os.mkdir] has no reason of its own to fail at the root, at [p] or
    at a directory above [p]. *)
Definition accepted (refuses : list string → option exn) (p : list string)
  : Prop :=
  Forall (λ q, refusal refuses q = None) ([] :: ancestors p).

End Fs.

Section Init.

(** [ConfigManager.load_config], which is not part of this module. *)
Variable load_config : string → result Config.AppConfig.

(** What the operating system refuses, see [Fs.refusal]. *)
Variable refuses : list string → option exn.

(** Truthiness of [self.folder_path]. *)
Definition path_given (fp : option string) : bool :=
  match fp with
  | Some s => Text.truthy s
  | None => false
  end.

(** [FolderWatcherInfo.__init__(self, config_path)] *)
Definition FolderWatcherInfo_init (config_path : string)
  : M Fs.Tree FolderWatcherInfo :=
  config ← (λ t, (load_config config_path, t));
  let self_folder_path := Config.folder_path (Config.folder_watcher config) in
  let self_sleep_time := Config.sleep_time (Config.folder_watcher config) in
  let self_ffnet_disable := Config.ffnet_disable (Config.folder_watcher config) in
  if negb (path_given self_folder_path) then raise ValueError
  else
    Fs.mkdir refuses (Fs.Path (default "" self_folder_path)) ;;
    mret {| folder_path := default "" self_folder_path;
            sleep_time := self_sleep_time;
            ffnet_disable := self_ffnet_disable |}.

End Init.

(** An operating system that refuses nothing. *)
Definition no_refusal : list string → option exn := λ _, None.

(** ** [suppress_logging] and the legacy shims *)

(** [try: m  finally: fin] *)
Definition try_finally {S A : Type} (m : M S A) (fin : M S unit) : M S A :=
  λ s, match m s with
       | (r, s') =>
           match fin s' with
           | (Return _, s'') => (r, s'')
           | (Raise e, s'') => (Raise e, s'')
           end
       end.

Module Logging.

(** The state of the standard [logging] module that this file touches:
    [logging.root.manager.disable], the level of the root logger, and
    the records that the root logger has let through. *)
Record State : Type := mkState {
  disable : Z;
  root_level : Z;
  records : list (Z * string);
}.

Definition CRITICAL : Z := 50.
Definition WARNING : Z := 30.

(** [logging.disable(level)] *)
Definition set_disable (level : Z) : M State unit := λ s,
  (Return tt, {| disable := level; root_level := root_level s;
                 records := records s |}).

(** [Logger.isEnabledFor(level)] on the root logger: [False] when
    [manager.disable >= level], otherwise [level >= self.level]. *)
Definition is_enabled_for (level : Z) (s : State) : bool :=
  negb (level <=? disable s) && (root_level s <=? level).

(** [logging.log(level, msg)] *)
Definition log_at (level : Z) (msg : string) : M State unit := λ s,
  if is_enabled_for level s
  then (Return tt, {| disable := disable s; root_level := root_level s;
                      records := records s ++ [(level, msg)] |})
  else (Return tt, s).

(** [logging.warning(msg)] *)
Definition warning (msg : string) : M State unit := log_at WARNING msg.

End Logging.

(** [with suppress_logging(): body] *)
Definition suppress_logging {A : Type} (body : M Logging.State A)
  : M Logging.State A := λ s,
  let old_level := Logging.disable s in
  (Logging.set_disable Logging.CRITICAL ;;
   try_finally body (Logging.set_disable old_level)) s.

Module Legacy.

(** What the legacy shims act on: the standard [logging] module, the
    deprecation warnings given to [ff_logging.log] (kept apart from the
    trace of the watcher, which they precede), and the world of the
    folder watcher. *)
Record State : Type := mkState {
  std_logging : Logging.State;
  deprecations : list string;
  core : World;
}.

Definition in_logging {A : Type} (m : M Logging.State A) : M State A := λ s,
  match m (std_logging s) with
  | (r, l') => (r, {| std_logging := l'; deprecations := deprecations s;
                      core := core s |})
  end.

Definition in_core {A : Type} (m : M World A) : M State A := λ s,
  match m (core s) with
  | (r, w') => (r, {| std_logging := std_logging s;
                      deprecations := deprecations s; core := w' |})
  end.


(** [DeprecatedEmailModule.get_urls_from_imap] *)
Definition get_urls_from_imap : M State (list string) :=
  in_logging
    (Logging.warning "get_urls_from_imap is deprecated and no longer functional") ;;
  mret [].

(** The attributes of an [EmailInfo]. *)
Record EmailInfo : Type := mkEmailInfo {
  _folder_watcher : FolderWatcherInfo;
  email : string;
  password : string;
  server : string;
  mailbox : string;
  sleep_time : Z;
  ffnet_disable : bool;
}.

(** [EmailInfo.get_urls]: the folder is scanned by the world of
    [self._folder_watcher]. *)
Definition EmailInfo_get_urls (self : EmailInfo) : M State (list string) :=
  try_except get_urls_from_imap (λ _, in_core get_urls).




End Legacy.

(** ** Notions used by the further properties *)

(** From [t] to [t'] nothing is removed or changed, and what is new is
    a directory at one of the paths [ps]. *)
Definition only_adds_dirs (ps : list (list string)) (t t' : Fs.Tree) : Prop :=
  t ⊆ t'
  ∧ ∀ q, t !! q = None → is_Some (t' !! q) →
         t' !! q = Some Fs.Directory ∧ q ∈ ps.

(** A URL as [get_urls] returns it: not empty, and equal to its own
    stripped form. *)
Definition stripped (u : string) : Prop :=
  Text.truthy u = true ∧ Text.strip u = u.

Definition is_debug_log (ev : Event) : bool :=
  match ev with Log DEBUG _ => true | _ => false end.

(** ** The claims as the specification words them

    Where the code does not do what a sentence of the specification says,
    the sentence is kept here as a predicate, to be refuted on a concrete
    input. *)

(** C1 as the specification words it: the file is gone after the call
    exactly when it was read and its stripped text is not empty. *)
Definition deleted_iff_read_nonempty (w : World) (name : string) (f : File)
  : Prop :=
  lookup_file name (folder (get_urls w).2) = None
  ↔ readable f = true ∧ Text.strip (text f) ≠ "".

(** C2 as the specification words it: the item has exactly one of the
    three outcomes. *)
Definition exactly_one_outcome
    (generate_FanficInfo_from_url : string → result FanficInfo)
    (folder_info : FolderWatcherInfo)
    (notification_info : option NotificationWrapper)
    (queues : gmap string Py.value) (u : string) (w : World) : Prop :=
  outcomes (new_events w (process_url generate_FanficInfo_from_url folder_info
                            notification_info queues u w).2) = 1%nat.

(** C8 as the specification words it: once the configuration is
    loaded, the construction raises exactly when the folder path is
    missing or empty. *)
Definition raises_iff_path_missing
    (load_config : string → result Config.AppConfig)
    (refuses : list string → option exn)
    (config_path : string) (t : Fs.Tree) : Prop :=
  ∀ config, load_config config_path = Return config →
    (∃ e, (FolderWatcherInfo_init load_config refuses config_path t).1
          = Raise e)
    ↔ path_given (Config.folder_path (Config.folder_watcher config)) = false.

(** C3 as the specification words it: the notification is sent and
    nothing is put on a queue. *)
Definition override_notifies
    (generate_FanficInfo_from_url : string → result FanficInfo)
    (folder_info : FolderWatcherInfo)
    (notification_info : option NotificationWrapper)
    (queues : gmap string Py.value) (u : string) (fanfic : FanficInfo)
    (w : World) : Prop :=
  let evs := new_events w (process_url generate_FanficInfo_from_url folder_info
                             notification_info queues u w).2 in
  Notify "New Fanfiction Download" (url fanfic) (site fanfic) ∈ evs
  ∧ filter (λ ev, is_put ev) evs = [].


(** ** Concrete folders, queues and configurations *)

Definition ex_file (s : string) : File :=
  {| text := s; readable := true; removable := true |}.

Definition ex_world : World :=
  {| folder := [("a.url", ex_file "  https://archiveofourown.org/works/123
");
                ("notes.txt", ex_file "keep");
                ("blank.url", ex_file "   ");
                ("b.url", ex_file "https://fanfiction.net/s/456")];
     scandir_error := false; trace := [] |}.

Definition ex_classify (u : string) : result FanficInfo :=
  if bool_decide (u = "https://archiveofourown.org/works/123")
  then Return {| url := "https://archiveofourown.org/works/123"; site := "ao3" |}
  else if bool_decide (u = "https://fanfiction.net/s/456")
  then Return {| url := "https://www.fanfiction.net/s/456"; site := "ffnet" |}
  else Raise ClassifierError.

Definition whitespace_file : File :=
  {| text := "  	
 "; readable := true; removable := true |}.

Definition whitespace_world : World :=
  {| folder := [("blank.url", whitespace_file)];
     scandir_error := false; trace := [] |}.

Definition valid_world : World :=
  {| folder := [("a.url", ex_file "  https://archiveofourown.org/works/123
");
                ("notes.txt", ex_file "keep");
                ("b.url", ex_file "https://fanfiction.net/s/456")];
     scandir_error := false; trace := [] |}.

Definition ffnet_url : string := "https://fanfiction.net/s/456".

Definition info_ffnet_disabled : FolderWatcherInfo :=
  {| folder_path := "/tmp/folder"; sleep_time := 60; ffnet_disable := true |}.

Definition info_ffnet_enabled : FolderWatcherInfo :=
  {| folder_path := "/tmp/folder"; sleep_time := 60; ffnet_disable := false |}.

Definition ex_queues : gmap string Py.value :=
  {[ "ao3" := Py.PyQueue 1; "ffnet" := Py.PyQueue 2; "other" := Py.PyQueue 0 ]}.

Definition ex_notifier : NotificationWrapper :=
  {| send_notification_raises := λ _ _ _, None |}.

Definition ex_config (fp : option string) (_ : string) : result Config.AppConfig :=
  Return {| Config.folder_watcher :=
              {| Config.folder_path := fp; Config.sleep_time := 60;
                 Config.ffnet_disable := true |} |}.

Definition blocked_tree : Fs.Tree := {[ ["urls"] := Fs.RegularFile ]}.

Definition tmp_tree : Fs.Tree := {[ ["tmp"] := Fs.Directory ]}.

(** A folder path with an embedded NUL character. *)
Definition nul_path : string := String "a" (String "000" "b").

Definition ao3_url : string := "https://archiveofourown.org/works/123".

Definition ao3_story : FanficInfo :=
  {| url := "https://archiveofourown.org/works/123"; site := "ao3" |}.

Definition ffnet_story : FanficInfo :=
  {| url := "https://www.fanfiction.net/s/456"; site := "ffnet" |}.


(** One unreadable file among five valid ones. *)
Definition five_and_one : World :=
  {| folder := [("1.url", ex_file "https://archiveofourown.org/works/1");
                ("2.url", ex_file "https://archiveofourown.org/works/2");
                ("locked.url",
                 {| text := "https://archiveofourown.org/works/0";
                    readable := false; removable := true |});
                ("3.url", ex_file "https://archiveofourown.org/works/3");
                ("4.url", ex_file "https://archiveofourown.org/works/4");
                ("5.url", ex_file "https://archiveofourown.org/works/5")];
     scandir_error := false; trace := [] |}.

(** One file that cannot be unlinked beside a valid one. *)
Definition stuck_world : World :=
  {| folder := [("ok.url", ex_file "https://archiveofourown.org/works/123");
                ("stuck.url",
                 {| text := "https://fanfiction.net/s/456";
                    readable := true; removable := false |})];
     scandir_error := false; trace := [] |}.

(** A valid file whose text is no story URL. *)
Definition garbage_world : World :=
  {| folder := [("bad.url", ex_file "not a story")];
     scandir_error := false; trace := [] |}.

Definition broken_notifier : NotificationWrapper :=
  {| send_notification_raises := λ _ _ _, Some OSError |}.

Definition odd_queues : gmap string Py.value :=
  {[ "ao3" := Py.PyInt 1; "other" := Py.PyQueue 0 ]}.



(** ** Tactics *)

Ltac unfold_monad :=
  unfold mbind, M_bind, mret, M_ret, fmap, M_fmap, try_except, raise,
    send_notification, Py.put, sleep, outside, log, log_debug, emit in *.

Ltac run_url :=
  unfold url_events, process_url, dispatch_url; unfold_monad; simpl.

Ltac split_queues :=
  repeat match goal with
         | |- context [negb (?z =? 0)] => destruct (z =? 0) eqn:?; simpl
         end.

Ltac pick_event H :=
  repeat (apply elem_of_cons in H as [H|H]; [try discriminate H|]);
  try (by apply elem_of_nil in H).

Ltac incl_cons :=
  let x := fresh "x" in
  let Hx := fresh "Hx" in
  intros x Hx;
  rewrite ?elem_of_cons, ?elem_of_nil in Hx;
  rewrite ?elem_of_cons, ?elem_of_nil; tauto.

(** * Properties *)

(** ** Lists and the folder *)

Lemma lookup_remove_file name m d :
  lookup_file m (remove_file name d)
  = if decide (name = m) then None else lookup_file m d.
Proof.
  unfold remove_file. induction d as [|[n f] d IH]; simpl.
  - by case_decide.
  - destruct (decide (n = name)) as [->|Hn].
    + rewrite filter_cons_False by (simpl; auto).
      rewrite IH. repeat case_decide; congruence.
    + rewrite filter_cons_True by done. simpl.
      rewrite IH. repeat case_decide; congruence.
Qed.

Lemma get_urls_file_run name urls w :
  ∃ evs,
    get_urls_file name (urls, w)
    = (Return tt,
       (urls ++ urls_in name (folder w),
        {| folder := if eaten name (folder w)
                     then remove_file name (folder w) else folder w;
           scandir_error := scandir_error w;
           trace := trace w ++ evs |})).
Proof.
  unfold get_urls_file, try_except, urls_in, eaten, contribution, consumed.
  unfold mbind, M_bind, fmap, M_fmap, in_world, open_read, unlink, urls_append,
    log_debug, emit, mret, M_ret, set_folder; simpl.
  destruct (lookup_file name (folder w)) as [f|] eqn:Hf; simpl;
    [destruct (readable f); simpl;
     [destruct (Text.truthy (Text.strip (text f))); simpl; rewrite Hf;
      destruct (removable f); simpl|]|];
    rewrite ?app_nil_r, <- ?app_assoc; eexists; reflexivity.
Qed.

Lemma filter_ext_elem {A : Type} (P Q : A → Prop)
    `{∀ x, Decision (P x)} `{∀ x, Decision (Q x)} (l : list A) :
  (∀ x, x ∈ l → (P x ↔ Q x)) → filter P l = filter Q l.
Proof.
  induction l as [|x l IH]; intros HPQ; [done|].
  rewrite !filter_cons.
  rewrite IH by (intros y Hy; apply HPQ; by right).
  pose proof (HPQ x (list_elem_of_here _ _)) as Hx.
  destruct (decide (P x)), (decide (Q x)); tauto.
Qed.

Lemma filter_all_elem {A : Type} (P : A → Prop) `{∀ x, Decision (P x)}
    (l : list A) :
  (∀ x, x ∈ l → P x) → filter P l = l.
Proof.
  induction l as [|x l IH]; intros HP; [done|].
  rewrite filter_cons_True by (apply HP; left).
  by rewrite IH by (intros y Hy; apply HP; by right).
Qed.

Lemma filter_swap {A : Type} (P Q : A → Prop)
    `{∀ x, Decision (P x)} `{∀ x, Decision (Q x)} (l : list A) :
  filter P (filter Q l) = filter Q (filter P l).
Proof.
  rewrite !list_filter_filter. apply list_filter_iff. tauto.
Qed.

Lemma flat_map_ext_elem {A B : Type} (f g : A → list B) (l : list A) :
  (∀ x, x ∈ l → f x = g x) → flat_map f l = flat_map g l.
Proof.
  induction l as [|x l IH]; intros Hfg; [done|]. simpl.
  rewrite (Hfg x) by left. by rewrite IH by (intros y Hy; apply Hfg; by right).
Qed.

Lemma lookup_file_elem name f d : lookup_file name d = Some f → (name, f) ∈ d.
Proof.
  induction d as [|[n g] d IH]; simpl; [done|].
  case_decide as Hn.
  - intros [= ->]. subst. left.
  - intros Hl. right. by apply IH.
Qed.

Lemma lookup_file_NoDup name f d :
  NoDup d.*1 → (name, f) ∈ d → lookup_file name d = Some f.
Proof.
  induction d as [|[n g] d IH]; simpl; intros Hnd Hin.
  - by apply elem_of_nil in Hin.
  - apply NoDup_cons in Hnd as [Hn Hnd].
    apply elem_of_cons in Hin as [[= -> ->]|Hin].
    + by rewrite decide_True.
    + rewrite decide_False; [by apply IH|].
      intros ->. apply Hn. apply list_elem_of_fmap. by exists (name, f).
Qed.

(** ** Running [get_urls] *)

(** The loop of [get_urls] over any duplicate-free sequence of names:
    every name contributes what its own file holds at the start, and
    exactly the consumed files leave the folder, the others staying in
    their places. *)
Lemma get_urls_loop_run names :
  NoDup names → ∀ urls w, ∃ evs,
    for_each names get_urls_file (urls, w)
    = (Return tt,
       (urls ++ flat_map (λ n, urls_in n (folder w)) names,
        {| folder := filter (λ e, ¬ (e.1 ∈ names ∧ eaten e.1 (folder w)))
                            (folder w);
           scandir_error := scandir_error w;
           trace := trace w ++ evs |})).
Proof.
  induction names as [|n ns IH]; intros Hnd urls w.
  - exists []. simpl. unfold mret, M_ret. rewrite !app_nil_r.
    destruct w as [d se t]; simpl.
    rewrite filter_all_elem; [done|].
    intros e _ [Hin _]. by apply elem_of_nil in Hin.
  - apply NoDup_cons in Hnd as [Hn Hnd].
    destruct (get_urls_file_run n urls w) as [evs1 Hrun].
    simpl. unfold mbind, M_bind at 1. rewrite Hrun.
    match goal with |- context [for_each ns get_urls_file (?u, ?w1)] =>
      destruct (IH Hnd u w1) as [evs2 Hrest] end.
    rewrite Hrest. simpl. exists (evs1 ++ evs2).
    rewrite <- !app_assoc. do 3 f_equal.
    + f_equal. apply flat_map_ext_elem. intros m Hm. unfold urls_in.
      simpl. destruct (eaten n (folder w)); [|done].
      rewrite lookup_remove_file, decide_False; [done|congruence].
    + simpl. destruct (eaten n (folder w)) eqn:He.
      * unfold remove_file. rewrite list_filter_filter.
        apply list_filter_iff. intros [m f]; simpl.
        change (filter _ (folder w)) with (remove_file n (folder w)).
        unfold eaten. rewrite lookup_remove_file.
        destruct (decide (n = m)) as [->|Hne].
        -- rewrite elem_of_cons. unfold eaten in He. split; [tauto|].
           intros Hk. exfalso. apply Hk. rewrite He. by split; [left|].
        -- rewrite elem_of_cons. split.
           ++ intros [Hk _] [[?|?] ?]; [congruence|]. by apply Hk.
           ++ intros Hk. split; [|congruence].
              intros [??]. apply Hk. by split; [right|].
      * apply list_filter_iff. intros [m f]; simpl.
        rewrite elem_of_cons. split.
        -- intros Hk [[->|?] ?]; [by rewrite He in *|]. by apply Hk.
        -- intros Hk [??]. apply Hk. by split; [right|].
Qed.

Lemma lookup_filter_name (Q : string → Prop) `{∀ n, Decision (Q n)} name d :
  lookup_file name (filter (λ e : string * File, Q e.1) d)
  = if decide (Q name) then lookup_file name d else None.
Proof.
  induction d as [|[n f] d IH]; simpl.
  - by case_decide.
  - rewrite filter_cons. simpl. destruct (decide (Q n)) as [Hq|Hq]; simpl.
    + rewrite IH. repeat case_decide; subst; tauto.
    + rewrite IH. repeat case_decide; subst; tauto.
Qed.

Lemma fmap_fst_filter (Q : string → Prop) `{∀ n, Decision (Q n)}
    (d : list (string * File)) :
  (filter (λ e : string * File, Q e.1) d).*1 = filter Q d.*1.
Proof.
  induction d as [|[n f] d IH]; [done|].
  rewrite fmap_cons, !filter_cons. cbn [fst].
  destruct (decide (Q n)); rewrite ?fmap_cons; cbn [fst]; by rewrite IH.
Qed.

Lemma remove_file_names name d :
  (remove_file name d).*1 = filter (λ n, n ≠ name) d.*1.
Proof. exact (fmap_fst_filter (λ n, n ≠ name) d). Qed.

Lemma flat_map_filter_nil {A B : Type} `{EqDecision A}
    (f g : A → list B) (a : A) (l : list A) :
  f a = [] → (∀ x, x ≠ a → g x = f x) →
  flat_map g (filter (λ x, x ≠ a) l) = flat_map f l.
Proof.
  intros Ha Hg. induction l as [|x l IH]; [done|].
  rewrite filter_cons. destruct (decide (x ≠ a)) as [Hx|Hx]; simpl.
  - by rewrite IH, Hg.
  - apply dec_stable in Hx as ->. by rewrite Ha, IH.
Qed.

Lemma NoDup_url_files d : NoDup d.*1 → NoDup (url_files d).
Proof. apply NoDup_filter. Qed.

Lemma elem_of_url_files n d :
  n ∈ url_files d ↔ is_url_file n ∧ n ∈ d.*1.
Proof. unfold url_files. by rewrite list_elem_of_filter. Qed.

(** One call of [get_urls] on a folder that can be scanned. *)
Lemma get_urls_run w :
  scandir_error w = false → NoDup (folder w).*1 →
  ∃ evs,
    get_urls w
    = (Return (flat_map (λ n, urls_in n (folder w)) (url_files (folder w))),
       {| folder := filter (λ e, ¬ (is_url_file e.1 ∧ eaten e.1 (folder w)))
                           (folder w);
          scandir_error := false;
          trace := trace w ++ evs |}).
Proof.
  intros Hscan Hnd. unfold get_urls, mbind, M_bind, in_world, glob. simpl.
  rewrite Hscan.
  destruct (get_urls_loop_run _ (NoDup_url_files _ Hnd) [] w) as [evs Hloop].
  rewrite Hloop. exists evs. simpl. rewrite Hscan. do 2 f_equal.
  apply filter_ext_elem. intros [n f] Hin; simpl.
  rewrite elem_of_url_files.
  assert (n ∈ (folder w).*1) by (apply list_elem_of_fmap; by exists (n, f)).
  tauto.
Qed.

(** A scan that fails makes [get_urls] raise, before any file is touched. *)
Lemma get_urls_scandir_error w :
  scandir_error w = true → get_urls w = (Raise OSError, w).
Proof.
  intros Hscan. unfold get_urls, mbind, M_bind, in_world, glob. simpl.
  rewrite Hscan. by destruct w.
Qed.

(** ** Running the watcher *)

Lemma new_events_app w d se evs :
  new_events w {| folder := d; scandir_error := se; trace := trace w ++ evs |}
  = evs.
Proof. unfold new_events. simpl. apply drop_app_length. Qed.


Section WatcherFacts.

Variable generate_FanficInfo_from_url : string → result FanficInfo.
Variable folder_info : FolderWatcherInfo.
Variable notification_info : option NotificationWrapper.
Variable queues : gmap string Py.value.

Abbreviation process :=
  (process_url generate_FanficInfo_from_url folder_info notification_info queues).
Abbreviation events_for :=
  (url_events generate_FanficInfo_from_url folder_info notification_info queues).

Lemma process_url_run u w :
  process u w
  = (Return tt, {| folder := folder w; scandir_error := scandir_error w;
                   trace := trace w ++ events_for u |}).
Proof.
  unfold url_events, process_url, dispatch_url. unfold_monad. simpl.
  destruct (generate_FanficInfo_from_url u) as [ff|e]; simpl; [|done].
  destruct (bool_decide (site ff = "ffnet") && ffnet_disable folder_info);
    simpl.
  - destruct notification_info as [n|]; simpl; [|done].
    destruct (send_notification_raises n _ _ _); simpl;
      by rewrite <- ?app_assoc.
  - destruct (Py.dict_get queues (site ff)), (Py.dict_get queues "other");
      simpl;
      repeat match goal with
             | |- context [negb (?z =? 0)] => destruct (z =? 0); simpl
             end;
      by rewrite <- ?app_assoc.
Qed.

Lemma process_batch_run urls w :
  for_each urls process w
  = (Return tt, {| folder := folder w; scandir_error := scandir_error w;
                   trace := trace w ++ flat_map events_for urls |}).
Proof.
  revert w. induction urls as [|u urls IH]; intros w; simpl.
  - unfold_monad. rewrite app_nil_r. by destruct w.
  - unfold mbind, M_bind at 1. rewrite process_url_run, IH. simpl.
    by rewrite <- app_assoc.
Qed.

Lemma process_url_events u w :
  (process u w).1 = Return tt
  ∧ new_events w (process u w).2 = events_for u.
Proof. rewrite process_url_run. split; [done|]. apply new_events_app. Qed.

Lemma process_batch_events urls w :
  (for_each urls process w).1 = Return tt
  ∧ new_events w (for_each urls process w).2 = flat_map events_for urls.
Proof. rewrite process_batch_run. split; [done|]. apply new_events_app. Qed.

End WatcherFacts.




(** ** The extractor: which files [get_urls] deletes and what it returns *)

Example strip_examples :
  Text.strip "  https://archiveofourown.org/works/123
" = "https://archiveofourown.org/works/123"
  ∧ Text.strip "a b " = "a b"
  ∧ Text.strip " 	
" = "".
Proof. repeat split. Qed.

Example is_url_file_examples :
  is_url_file "a.url" = true ∧ is_url_file ".url" = true
  ∧ is_url_file "a.url.txt" = false ∧ is_url_file "a.URL" = false.
Proof. repeat split. Qed.

(** C1, counterexample: a readable file that holds only whitespace is
    unlinked all the same ([url_file.unlink()] is not under [if url:]),
    so deletion does not wait for a non-empty text. *)
Lemma get_urls_unlinks_whitespace_file :
  lookup_file "blank.url" (folder whitespace_world) = Some whitespace_file
  ∧ Text.strip (text whitespace_file) = ""
  ∧ lookup_file "blank.url" (folder (get_urls whitespace_world).2) = None
  ∧ ¬ deleted_iff_read_nonempty whitespace_world "blank.url" whitespace_file.
Proof.
  split_and!; try reflexivity.
  intros [Hdel _]. by destruct (Hdel eq_refl) as [_ Hne].
Qed.

Lemma get_urls_no_url_files w :
  scandir_error w = false → url_files (folder w) = [] →
  get_urls w = (Return [], w).
Proof.
  intros Hscan Hnone. unfold get_urls, mbind, M_bind, in_world, glob. simpl.
  rewrite Hscan, Hnone. simpl. by destruct w.
Qed.

(** C1, as the code has it: a scanned file is deleted exactly when its
    read and its unlink both succeed, whatever its text; a file that is
    not deleted stays as it was; and a file that cannot be read, or
    whose stripped text is empty, adds nothing to the returned list:
    the call returns what it returns on the folder without that file. *)
Theorem get_urls_deletes_what_it_reads (w : World) (name : string) (f : File) :
  scandir_error w = false → NoDup (folder w).*1 →
  (name, f) ∈ folder w → is_url_file name →
  ∃ urls w',
    get_urls w = (Return urls, w')
    ∧ (lookup_file name (folder w') = None
       ↔ readable f = true ∧ removable f = true)
    ∧ (lookup_file name (folder w') = None
       ∨ lookup_file name (folder w') = Some f)
    ∧ (readable f = false ∨ Text.strip (text f) = "" →
       (get_urls (set_folder (remove_file name (folder w)) w)).1 = Return urls).
Proof.
  intros Hscan Hnd Hin Hurl.
  destruct (get_urls_run w Hscan Hnd) as [evs Hrun].
  pose proof (lookup_file_NoDup _ _ _ Hnd Hin) as Hlook.
  eexists _, _. split; [exact Hrun|]. cbn [folder].
  pose proof (lookup_filter_name
                (λ n, ¬ (is_url_file n ∧ eaten n (folder w))) name (folder w))
    as Hkeep.
  cbv beta in Hkeep. rewrite Hkeep. clear Hkeep.
  assert (eaten name (folder w) = consumed f) as ->
    by (unfold eaten; by rewrite Hlook).
  rewrite Hlook. unfold consumed.
  split_and!.
  - case_decide as Hk.
    + split; [done|]. intros [Hr Hu]. exfalso. apply Hk.
      by rewrite Hr, Hu.
    + split; [|done]. intros _. destruct Hk as [_ Hk].
      by apply andb_prop_elim in Hk as [?%Is_true_eq_true ?%Is_true_eq_true].
  - case_decide; auto.
  - intros Hblank.
    assert (urls_in name (folder w) = []) as Hnil.
    { unfold urls_in, contribution. rewrite Hlook. simpl.
      destruct Hblank as [->| ->]; [done|]. by rewrite andb_false_r. }
    assert (NoDup (remove_file name (folder w)).*1) as Hnd'.
    { rewrite remove_file_names. by apply NoDup_filter. }
    destruct (get_urls_run (set_folder (remove_file name (folder w)) w)
                Hscan Hnd') as [evs' ->].
    cbn [fst set_folder folder]. f_equal. unfold url_files.
    rewrite remove_file_names, filter_swap.
    apply flat_map_filter_nil; [done|].
    intros m Hm. unfold urls_in.
    rewrite lookup_remove_file. by rewrite decide_False.
Qed.

Lemma get_urls_deletes_what_it_reads_witness :
  ∃ urls w',
    get_urls ex_world = (Return urls, w')
    ∧ (lookup_file "blank.url" (folder w') = None
       ↔ readable (ex_file "   ") = true ∧ removable (ex_file "   ") = true)
    ∧ (lookup_file "blank.url" (folder w') = None
       ∨ lookup_file "blank.url" (folder w') = Some (ex_file "   "))
    ∧ (readable (ex_file "   ") = false ∨ Text.strip (text (ex_file "   ")) = "" →
       (get_urls (set_folder (remove_file "blank.url" (folder ex_world)) ex_world)).1
       = Return urls).
Proof.
  apply (get_urls_deletes_what_it_reads ex_world "blank.url" (ex_file "   ")).
  - reflexivity.
  - apply (bool_decide_unpack _). vm_compute. exact I.
  - simpl. right. right. left.
  - vm_compute. exact I.
Defined.

(** A file whose unlink raises stays in the folder, and the URL read from
    it is returned all the same: [urls.append] comes before [unlink]. *)
Example get_urls_keeps_url_of_undeletable_file :
  get_urls {| folder := [("stuck.url",
                          {| text := "https://archiveofourown.org/works/9";
                             readable := true; removable := false |})];
              scandir_error := false; trace := [] |}
  = (Return ["https://archiveofourown.org/works/9"],
     {| folder := [("stuck.url",
                    {| text := "https://archiveofourown.org/works/9";
                       readable := true; removable := false |})];
        scandir_error := false;
        trace := [Log DEBUG (FoundUrl "stuck.url"
                               "https://archiveofourown.org/works/9");
                  Log DEBUG (ErrorProcessingFile "stuck.url" PermissionError)] |}).
Proof. reflexivity. Qed.

(** C5: on a folder whose .url files are all valid, one call returns as
    many URLs as there are .url files and leaves no .url file behind, and
    a second call on what is left returns the empty list (and changes
    nothing). *)
Theorem get_urls_idempotent_extraction (w : World) :
  scandir_error w = false → NoDup (folder w).*1 →
  Forall (λ e, is_url_file e.1 → valid_file e.2) (folder w) →
  ∃ urls w',
    get_urls w = (Return urls, w')
    ∧ length urls = length (url_files (folder w))
    ∧ url_files (folder w') = []
    ∧ get_urls w' = (Return [], w').
Proof.
  intros Hscan Hnd Hvalid.
  destruct (get_urls_run w Hscan Hnd) as [evs Hrun].
  eexists _, _. split; [exact Hrun|].
  assert (∀ n, n ∈ url_files (folder w) →
               ∃ f, lookup_file n (folder w) = Some f ∧ valid_file f) as Hlook.
  { intros n [Hurl Hn]%elem_of_url_files.
    apply list_elem_of_fmap in Hn as [[n' f] [-> Hin]]. exists f.
    split; [by apply lookup_file_NoDup|].
    rewrite Forall_forall in Hvalid. by apply (Hvalid _ Hin). }
  assert (url_files
            (filter (λ e, ¬ (is_url_file e.1 ∧ eaten e.1 (folder w))) (folder w))
          = []) as Hgone.
  { apply elem_of_nil_inv. intros n [Hurl Hn]%elem_of_url_files.
    apply list_elem_of_fmap in Hn as [[n' f] [-> Hin]].
    apply list_elem_of_filter in Hin as [Hkeep Hin]. apply Hkeep.
    split; [done|]. simpl in *.
    destruct (Hlook n') as (f' & Hf' & Hv).
    { apply elem_of_url_files. split; [done|].
      apply list_elem_of_fmap. by exists (n', f). }
    unfold eaten, valid_file, consumed in *. rewrite Hf'. simpl.
    by apply andb_prop_elim in Hv as [? _]. }
  split_and!.
  - rewrite flat_map_constant_length with (c := 1%nat); [lia|].
    intros n Hn%list_elem_of_In. destruct (Hlook n Hn) as (f & Hf & Hv).
    unfold urls_in, contribution, valid_file in *. rewrite Hf. simpl.
    apply andb_prop_elim in Hv as [[Hr _]%andb_prop_elim Ht].
    apply Is_true_eq_true in Hr, Ht. by rewrite Hr, Ht.
  - exact Hgone.
  - by apply get_urls_no_url_files.
Qed.

Lemma get_urls_idempotent_extraction_witness :
  ∃ urls w',
    get_urls valid_world = (Return urls, w')
    ∧ length urls = length (url_files (folder valid_world))
    ∧ url_files (folder w') = []
    ∧ get_urls w' = (Return [], w').
Proof.
  apply (get_urls_idempotent_extraction valid_world).
  - reflexivity.
  - apply (bool_decide_unpack _). vm_compute. exact I.
  - repeat constructor; vm_compute; tauto.
Defined.

(** ** The dispatcher: what happens to one URL of the batch *)

(** C2, counterexample: an ffnet URL, ffnet processing disabled, and no
    notifier: [if notification_info:] fails and [continue] follows, so
    the item is neither notified, nor enqueued, nor logged as dropped. *)
Lemma ffnet_without_notifier_has_no_outcome :
  outcomes (new_events blank_world
              (process_url ex_classify info_ffnet_disabled None ex_queues ffnet_url
                 blank_world).2) = 0%nat
  ∧ ¬ exactly_one_outcome ex_classify info_ffnet_disabled None ex_queues ffnet_url
        blank_world.
Proof. split; [reflexivity|]. unfold exactly_one_outcome. by vm_compute. Qed.

Section DispatcherClaims.

Variable generate_FanficInfo_from_url : string → result FanficInfo.
Variable folder_info : FolderWatcherInfo.
Variable notification_info : option NotificationWrapper.
Variable queues : gmap string Py.value.

Abbreviation process :=
  (process_url generate_FanficInfo_from_url folder_info notification_info queues).
Abbreviation events_for :=
  (url_events generate_FanficInfo_from_url folder_info notification_info queues).

(** C2, as the code has it: every URL of the batch is processed
    without an exception leaving [process_url], and it has exactly one
    of the three outcomes (notified, enqueued, drop logged), except
    when the override applies and there is no notifier: then it has
    none. *)
Theorem one_outcome_unless_silently_skipped (u : string) (w : World) :
  (process u w).1 = Return tt
  ∧ outcomes (new_events w (process u w).2)
    = if silently_skipped generate_FanficInfo_from_url folder_info
           notification_info u
      then 0%nat else 1%nat.
Proof.
  destruct (process_url_events generate_FanficInfo_from_url folder_info
              notification_info queues u w) as [Hret ->].
  split; [done|].
  unfold silently_skipped, url_events, process_url, dispatch_url.
  unfold_monad. simpl.
  destruct (generate_FanficInfo_from_url u) as [ff|e]; simpl; [|done].
  destruct (bool_decide (site ff = "ffnet") && ffnet_disable folder_info);
    simpl.
  - destruct notification_info as [n|]; simpl; [|done].
    by destruct (send_notification_raises n _ _ _).
  - destruct (Py.dict_get queues (site ff)), (Py.dict_get queues "other");
      simpl;
      repeat match goal with
             | |- context [negb (?z =? 0)] => destruct (z =? 0); simpl
             end;
      done.
Qed.

(** C3, as the code has it: an item of site "ffnet", when ffnet
    processing is disabled, is put on no queue, whatever [queues]
    holds; the notification (the fixed title, the normalized URL, the
    site) is sent when there is a notifier and its call returns, and
    nothing is sent when there is no notifier. *)
Theorem ffnet_override_is_exclusive (u : string) (fanfic : FanficInfo)
    (w : World) :
  generate_FanficInfo_from_url u = Return fanfic →
  site fanfic = "ffnet" → ffnet_disable folder_info = true →
  filter (λ ev, is_put ev) (new_events w (process u w).2) = []
  ∧ filter (λ ev, is_notify ev) (new_events w (process u w).2)
    = match notification_info with
      | Some n =>
          match send_notification_raises n "New Fanfiction Download"
                  (url fanfic) (site fanfic) with
          | None => [Notify "New Fanfiction Download" (url fanfic) (site fanfic)]
          | Some _ => []
          end
      | None => []
      end.
Proof.
  intros Hgen Hsite Hoff.
  destruct (process_url_events generate_FanficInfo_from_url folder_info
              notification_info queues u w) as [_ ->].
  run_url. rewrite Hgen, Hoff. simpl.
  rewrite (bool_decide_eq_true_2 _ Hsite). simpl.
  destruct notification_info as [n|]; simpl; [|done].
  by destruct (send_notification_raises n _ _ _).
Qed.








Lemma deliveries_app evs1 evs2 :
  deliveries (evs1 ++ evs2) = deliveries evs1 ++ deliveries evs2.
Proof. apply filter_app. Qed.

(** C9: when two items of one batch are both delivered, the delivery
    of the one that comes first in the batch happens before the
    delivery of the other: the deliveries of the cycle are those of
    the items before, between and after the two, with the two
    deliveries at their places. *)
Theorem deliveries_follow_batch_order
    (us1 us2 us3 : list string) (ui uj : string) (di dj : Event)
    (w : World) :
  deliveries (new_events w (process ui w).2) = [di] →
  deliveries (new_events w (process uj w).2) = [dj] →
  deliveries (new_events w
                (for_each (us1 ++ ui :: us2 ++ uj :: us3) process w).2)
  = deliveries (new_events w (for_each us1 process w).2)
    ++ di :: deliveries (new_events w (for_each us2 process w).2)
    ++ dj :: deliveries (new_events w (for_each us3 process w).2).
Proof.
  intros Hi Hj.
  rewrite (proj2 (process_url_events _ _ _ _ _ _)) in Hi.
  rewrite (proj2 (process_url_events _ _ _ _ _ _)) in Hj.
  rewrite !(proj2 (process_batch_events _ _ _ _ _ _)).
  rewrite flat_map_app. simpl. rewrite flat_map_app. simpl.
  rewrite !deliveries_app. by rewrite Hi, Hj.
Qed.

(** C6: a file that cannot be read or unlinked does not change what
    happens to the other files of the scan, and a URL whose
    classification or dispatch raises does not change what happens to
    the other URLs of the batch: [get_urls] returns, in scan order,
    what each file yields when it is processed alone, and leaves each
    scanned file as processing it alone leaves it; the batch raises
    nothing and its events are, in batch order, the events of each URL
    processed alone. *)
Theorem failures_are_isolated (w : World) :
  scandir_error w = false → NoDup (folder w).*1 →
  (∃ found w',
     get_urls w = (Return found, w')
     ∧ found = flat_map (λ n, (get_urls_file n ([], w)).2.1)
                        (url_files (folder w))
     ∧ ∀ n, n ∈ url_files (folder w) →
            lookup_file n (folder w')
            = lookup_file n (folder (get_urls_file n ([], w)).2.2))
  ∧ (∀ urls w0,
       (for_each urls process w0).1 = Return tt
       ∧ new_events w0 (for_each urls process w0).2
         = flat_map (λ u, new_events w0 (process u w0).2) urls).
Proof.
  intros Hscan Hnd. split.
  - destruct (get_urls_run w Hscan Hnd) as [evs Hrun].
    eexists _, _. split; [exact Hrun|]. split.
    + apply flat_map_ext_elem. intros n _.
      by destruct (get_urls_file_run n [] w) as [evs' ->].
    + intros n [Hurl _]%elem_of_url_files.
      destruct (get_urls_file_run n [] w) as [evs' ->]. cbn [snd folder].
      pose proof (lookup_filter_name
                    (λ m, ¬ (is_url_file m ∧ eaten m (folder w))) n (folder w))
        as Hkeep.
      cbv beta in Hkeep. rewrite Hkeep. clear Hkeep.
      destruct (eaten n (folder w)) eqn:He.
      * rewrite lookup_remove_file.
        rewrite (decide_True (P := n = n)) by done.
        rewrite decide_False; [done|]. intros Hk. apply Hk. by split.
      * rewrite decide_True; [done|]. by intros [_ ?].
  - intros urls w0. split; [apply process_batch_events|].
    rewrite (proj2 (process_batch_events _ _ _ _ _ _)).
    apply flat_map_ext_elem. intros u _.
    by rewrite (proj2 (process_url_events _ _ _ _ _ _)).
Qed.


End DispatcherClaims.

(** ** Concrete runs of the dispatcher and of the loop *)

(** C3, counterexample: the override applies and there is no notifier:
    the only event is the debug line of the classification, so the item
    is not delivered to the notifier. *)
Lemma ffnet_without_notifier_is_not_notified :
  ex_classify ffnet_url = Return ffnet_story
  ∧ new_events blank_world
      (process_url ex_classify info_ffnet_disabled None ex_queues ffnet_url blank_world).2
    = [Log DEBUG (IdentifiedSite ffnet_url "ffnet")]
  ∧ ¬ override_notifies ex_classify info_ffnet_disabled None ex_queues ffnet_url
        ffnet_story blank_world.
Proof.
  split_and!; [reflexivity|reflexivity|].
  intros [Hin _]. vm_compute in Hin.
  apply list_elem_of_singleton in Hin. discriminate Hin.
Qed.

Lemma ffnet_override_is_exclusive_witness :
  filter (λ ev, is_put ev)
    (new_events blank_world
       (process_url ex_classify info_ffnet_disabled (Some ex_notifier) ex_queues
          ffnet_url blank_world).2) = []
  ∧ filter (λ ev, is_notify ev)
      (new_events blank_world
         (process_url ex_classify info_ffnet_disabled (Some ex_notifier) ex_queues
            ffnet_url blank_world).2)
    = [Notify "New Fanfiction Download" "https://www.fanfiction.net/s/456"
         "ffnet"].
Proof.
  apply (ffnet_override_is_exclusive ex_classify info_ffnet_disabled (Some ex_notifier)
           ex_queues ffnet_url ffnet_story blank_world); reflexivity.
Defined.




Lemma deliveries_follow_batch_order_witness :
  deliveries
    (new_events blank_world
       (for_each ([] ++ ffnet_url :: ["no such story"] ++ ao3_url :: [])
          (process_url ex_classify info_ffnet_disabled (Some ex_notifier) ex_queues)
          blank_world).2)
  = deliveries
      (new_events blank_world
         (for_each [] (process_url ex_classify info_ffnet_disabled (Some ex_notifier)
                         ex_queues) blank_world).2)
    ++ Notify "New Fanfiction Download" "https://www.fanfiction.net/s/456"
         "ffnet"
    :: deliveries
         (new_events blank_world
            (for_each ["no such story"]
               (process_url ex_classify info_ffnet_disabled (Some ex_notifier) ex_queues)
               blank_world).2)
    ++ Put 1 ao3_story
    :: deliveries
         (new_events blank_world
            (for_each [] (process_url ex_classify info_ffnet_disabled (Some ex_notifier)
                            ex_queues) blank_world).2).
Proof.
  apply (deliveries_follow_batch_order ex_classify info_ffnet_disabled (Some ex_notifier)
           ex_queues [] ["no such story"] [] ffnet_url ao3_url);
    reflexivity.
Defined.

Example get_urls_five_and_one :
  (get_urls five_and_one).1
  = Return ["https://archiveofourown.org/works/1";
            "https://archiveofourown.org/works/2";
            "https://archiveofourown.org/works/3";
            "https://archiveofourown.org/works/4";
            "https://archiveofourown.org/works/5"]
  ∧ (folder (get_urls five_and_one).2).*1 = ["locked.url"].
Proof. split; reflexivity. Qed.

Lemma failures_are_isolated_witness :
  (∃ found w',
     get_urls five_and_one = (Return found, w')
     ∧ found = flat_map (λ n, (get_urls_file n ([], five_and_one)).2.1)
                        (url_files (folder five_and_one))
     ∧ ∀ n, n ∈ url_files (folder five_and_one) →
            lookup_file n (folder w')
            = lookup_file n (folder (get_urls_file n ([], five_and_one)).2.2))
  ∧ (∀ urls w0,
       (for_each urls (process_url ex_classify info_ffnet_disabled None ex_queues) w0).1
       = Return tt
       ∧ new_events w0
           (for_each urls (process_url ex_classify info_ffnet_disabled None ex_queues)
              w0).2
         = flat_map
             (λ u, new_events w0
                     (process_url ex_classify info_ffnet_disabled None ex_queues u w0).2)
             urls).
Proof.
  apply (failures_are_isolated ex_classify info_ffnet_disabled None ex_queues
           five_and_one).
  - reflexivity.
  - apply (bool_decide_unpack _). vm_compute. exact I.
Defined.


(** The scenario of the specification: two files, a queue for the first
    site and the queue of "other", ffnet processing enabled.  After one
    iteration both files are gone, the first item is on its own queue
    and the second on the queue of "other". *)
Example poll_cycle_scenario :
  poll_cycle ex_classify info_ffnet_enabled None
    {[ "ao3" := Py.PyQueue 1; "other" := Py.PyQueue 2 ]}
    {| folder := [("a.url", ex_file "https://archiveofourown.org/works/123");
                  ("b.url", ex_file "https://fanfiction.net/s/456")];
       scandir_error := false; trace := [] |}
  = (Return tt,
     {| folder := []; scandir_error := false;
        trace := [Log DEBUG (FoundUrl "a.url" ao3_url);
                  Log DEBUG (RemovedFile "a.url");
                  Log DEBUG (FoundUrl "b.url" ffnet_url);
                  Log DEBUG (RemovedFile "b.url");
                  Log DEBUG (IdentifiedSite ao3_url "ao3");
                  Put 1 ao3_story;
                  Log INFO (QueuedUrl "ao3" ao3_url);
                  Log DEBUG (IdentifiedSite ffnet_url "ffnet");
                  Put 2 ffnet_story;
                  Log INFO (QueuedUrl "ffnet" ffnet_url);
                  Sleep 60] |}).
Proof. reflexivity. Qed.

(** [time.sleep] is outside the [try]: with a negative sleep time the
    first iteration ends the loop. *)
Example negative_sleep_time_ends_the_loop :
  (folder_watcher ex_classify
     {| folder_path := "/tmp/folder"; sleep_time := -1; ffnet_disable := true |}
     None ex_queues
     [ {| new_folder := []; new_scandir_error := false |} ] blank_world).1
  = Raise ValueError.
Proof. reflexivity. Qed.

(** So does a sleep time whose nanoseconds do not fit 64 bits:
    [time.sleep] raises [OverflowError] after the first scan, outside
    both [try] blocks. *)
Example oversized_sleep_time_ends_the_loop :
  (folder_watcher ex_classify
     {| folder_path := "/tmp/folder"; sleep_time := 10000000000;
        ffnet_disable := true |}
     None ex_queues
     [ {| new_folder := []; new_scandir_error := false |} ] blank_world).1
  = Raise OverflowError.
Proof. reflexivity. Qed.

(** ** Creating the folder *)

Lemma parent_snoc (p : list string) (c : string) : Fs.parent (p ++ [c]) = p.
Proof. apply removelast_last. Qed.

Lemma is_dir_snoc (p : list string) (c : string) (t : Fs.Tree) :
  Fs.is_dir (p ++ [c]) t = bool_decide (t !! (p ++ [c]) = Some Fs.Directory).
Proof.
  unfold Fs.is_dir. rewrite bool_decide_eq_false_2; [done|].
  by destruct p.
Qed.

Lemma exists_snoc (p : list string) (c : string) (t : Fs.Tree) :
  Fs.exists_ (p ++ [c]) t = bool_decide (is_Some (t !! (p ++ [c]))).
Proof.
  unfold Fs.exists_. rewrite bool_decide_eq_false_2; [done|].
  by destruct p.
Qed.

Lemma is_dir_exists (p : list string) (t : Fs.Tree) : Fs.is_dir p t = true → Fs.exists_ p t = true.
Proof.
  unfold Fs.is_dir, Fs.exists_.
  intros [Hp|Hp]%orb_true_iff; apply orb_true_iff; [by left|right].
  apply bool_decide_eq_true in Hp. apply bool_decide_eq_true. by rewrite Hp.
Qed.

Lemma is_dir_mono (p : list string) (t t' : Fs.Tree) :
  t ⊆ t' → Fs.is_dir p t = true → Fs.is_dir p t' = true.
Proof.
  unfold Fs.is_dir. intros Hsub [Hp|Hp]%orb_true_iff; apply orb_true_iff;
    [by left|right].
  apply bool_decide_eq_true in Hp. apply bool_decide_eq_true.
  by eapply lookup_weaken.
Qed.

(** In a well-formed tree the directories above a directory exist. *)
Lemma well_formed_ancestors (rp : list string) (t : Fs.Tree) :
  Fs.well_formed t → Fs.is_dir (rev rp) t = true →
  Forall (λ q, t !! q = Some Fs.Directory) (Fs.ancestors_r rp).
Proof.
  intros Hwf. induction rp as [|c rp IH]; intros Hdir; [constructor|].
  simpl in *. rewrite is_dir_snoc in Hdir. apply bool_decide_eq_true in Hdir.
  constructor; [done|]. apply IH.
  specialize (Hwf _ _ Hdir). simpl in Hwf. by rewrite parent_snoc in Hwf.
Qed.

(** [os.mkdir] of a path whose parent is a directory and that is not a
    regular file, when the operating system has no reason of its own to
    refuse: the directory is made, or it was there. *)
Lemma os_mkdir_in_dir (refuses : list string → option exn)
    (p : list string) (c : string) (t : Fs.Tree) :
  Fs.refusal refuses (p ++ [c]) = None →
  Fs.is_dir p t = true → t !! (p ++ [c]) ≠ Some Fs.RegularFile →
  (t !! (p ++ [c]) = None
   ∧ Fs.os_mkdir refuses (p ++ [c]) t
     = (Return tt, <[p ++ [c] := Fs.Directory]> t))
  ∨ (t !! (p ++ [c]) = Some Fs.Directory
     ∧ Fs.os_mkdir refuses (p ++ [c]) t = (Raise FileExistsError, t)).
Proof.
  intros Hacc Hdir Hfile. unfold Fs.os_mkdir. rewrite Hacc.
  rewrite parent_snoc, (is_dir_exists _ _ Hdir), Hdir, exists_snoc. simpl.
  destruct (t !! (p ++ [c])) as [[]|] eqn:Hp; [right|done|left].
  - split; [done|]. by rewrite bool_decide_eq_true_2.
  - split; [done|]. rewrite bool_decide_eq_false_2; [done|].
    by intros [? ?].
Qed.

Lemma well_formed_insert (p : list string) (c : string) (t : Fs.Tree) :
  Fs.well_formed t → Fs.is_dir p t = true → t !! (p ++ [c]) = None →
  Fs.well_formed (<[p ++ [c] := Fs.Directory]> t).
Proof.
  intros Hwf Hdir Hnone. apply map_Forall_insert; [done|].
  assert (t ⊆ <[p ++ [c] := Fs.Directory]> t) as Hsub
    by by apply insert_subseteq.
  split.
  - rewrite parent_snoc. by eapply is_dir_mono.
  - intros q x Hq. eapply is_dir_mono; [done|]. by apply (Hwf q x).
Qed.

(** [mkdir] of the root, which exists: nothing is raised and nothing
    changes, unless the operating system refuses with an exception that
    is no [OSError]. *)
Lemma mkdir_parents_root (refuses : list string → option exn) (t : Fs.Tree) :
  Fs.refusal refuses [] = None →
  Fs.mkdir_parents refuses [] t = (Return tt, t).
Proof.
  intros Hroot. simpl. unfold try_except, Fs.os_mkdir. by rewrite Hroot.
Qed.

(** What [mkdir(parents=True, exist_ok=True)] does when nothing on the
    path is a regular file and the operating system refuses nothing on
    it. *)
Lemma mkdir_parents_creates (refuses : list string → option exn)
    (rp : list string) (t : Fs.Tree) :
  Forall (λ q, Fs.refusal refuses q = None) ([] :: Fs.ancestors_r rp) →
  Fs.well_formed t →
  Forall (λ q, t !! q ≠ Some Fs.RegularFile) (Fs.ancestors_r rp) →
  ∃ t', Fs.mkdir_parents refuses rp t = (Return tt, t')
        ∧ Fs.is_dir (rev rp) t' = true
        ∧ t ⊆ t'
        ∧ Fs.well_formed t'
        ∧ (∀ q, t' !! q = Some Fs.RegularFile → t !! q = Some Fs.RegularFile).
Proof.
  intros [Hroot Hacc]%Forall_cons.
  revert t. induction rp as [|c rp IH]; intros t Hwf Hfree.
  - exists t. rewrite (mkdir_parents_root _ _ Hroot). by repeat split.
  - apply Forall_cons in Hfree as [Hp Hfree]. simpl in Hp.
    apply Forall_cons in Hacc as [Hc Hacc]. simpl in Hc.
    specialize (IH Hacc).
    assert (∀ t1 : Fs.Tree,
              Fs.well_formed t1 → Fs.is_dir (rev rp) t1 = true →
              t1 !! (rev rp ++ [c]) ≠ Some Fs.RegularFile →
              ∀ m : exn → M Fs.Tree unit,
              ∃ t',
                try_except (Fs.os_mkdir refuses (rev rp ++ [c]))
                  (λ e, match e with
                        | FileNotFoundError => m e
                        | _ => Fs.except_OSError true (rev rp ++ [c]) e
                        end) t1 = (Return tt, t')
                ∧ Fs.is_dir (rev rp ++ [c]) t' = true
                ∧ t1 ⊆ t'
                ∧ Fs.well_formed t'
                ∧ (∀ q, t' !! q = Some Fs.RegularFile
                        → t1 !! q = Some Fs.RegularFile)) as Hstep.
    { intros t1 Hwf1 Hdir1 Hp1 m. unfold try_except.
      destruct (os_mkdir_in_dir refuses _ c t1 Hc Hdir1 Hp1)
        as [[Hnone ->]|[Hsome ->]].
      - exists (<[rev rp ++ [c] := Fs.Directory]> t1). split_and!.
        + done.
        + rewrite is_dir_snoc. apply bool_decide_eq_true.
          apply lookup_insert_eq.
        + by apply insert_subseteq.
        + by apply well_formed_insert.
        + intros q Hq. destruct (decide (rev rp ++ [c] = q)) as [<-|Hne].
          * by rewrite lookup_insert_eq in Hq.
          * by rewrite lookup_insert_ne in Hq.
      - exists t1.
        assert (Fs.is_dir (rev rp ++ [c]) t1 = true) as Hd
          by (rewrite is_dir_snoc; by apply bool_decide_eq_true).
        unfold Fs.except_OSError. simpl. rewrite Hd. by repeat split. }
    destruct (Fs.is_dir (rev rp) t) eqn:Hdir.
    { exact (Hstep t Hwf Hdir Hp
               (λ _, Fs.mkdir_parents refuses rp ;;
                     Fs.mkdir_leaf refuses true (rev rp ++ [c]))). }
    destruct (Fs.exists_ (rev rp) t) eqn:Hex.
    { exfalso. destruct rp as [|c' rp]; [done|].
      apply Forall_cons in Hfree as [Hpar _]. simpl in *.
      rewrite is_dir_snoc in Hdir. rewrite exists_snoc in Hex.
      apply bool_decide_eq_false in Hdir.
      apply bool_decide_eq_true in Hex as [[] Hx]; congruence. }
    destruct (IH t Hwf Hfree) as (t1 & Hrun & Hdir1 & Hsub1 & Hwf1 & Hreg1).
    assert (t1 !! (rev rp ++ [c]) ≠ Some Fs.RegularFile) as Hp1
      by (intros Hq; by apply Hreg1 in Hq).
    destruct (Hstep t1 Hwf1 Hdir1 Hp1 raise)
      as (t' & Hrun' & Hdir' & Hsub' & Hwf' & Hreg').
    exists t'. split_and!; try done.
    + simpl. unfold try_except at 1. unfold Fs.os_mkdir at 1.
      rewrite Hc, parent_snoc, Hex. simpl.
      unfold mbind, M_bind. rewrite Hrun. exact Hrun'.
    + by etrans.
    + intros q Hq. by apply Hreg1, Hreg'.
Qed.

(** The same call when the directory and those above it exist: nothing
    is raised and nothing changes. *)
Lemma mkdir_parents_exists (refuses : list string → option exn)
    (rp : list string) (t : Fs.Tree) :
  Forall (λ q, Fs.refusal refuses q = None) ([] :: Fs.ancestors_r rp) →
  Forall (λ q, t !! q = Some Fs.Directory) (Fs.ancestors_r rp) →
  Fs.mkdir_parents refuses rp t = (Return tt, t).
Proof.
  intros [Hroot Hacc]%Forall_cons.
  destruct rp as [|c rp]; intros Hdirs; [by apply mkdir_parents_root|].
  apply Forall_cons in Hdirs as [Hp Hdirs].
  apply Forall_cons in Hacc as [Hc Hacc]. simpl in *.
  assert (Fs.is_dir (rev rp) t = true) as Hdir.
  { destruct rp as [|c' rp]; [done|].
    apply Forall_cons in Hdirs as [Hpar _]. simpl in *.
    rewrite is_dir_snoc. by apply bool_decide_eq_true. }
  unfold try_except.
  destruct (os_mkdir_in_dir refuses _ c t Hc Hdir) as [[Hnone _]|[_ ->]];
    [by rewrite Hp|congruence|].
  unfold Fs.except_OSError. simpl.
  rewrite is_dir_snoc, bool_decide_eq_true_2; done.
Qed.

(** ** [FolderWatcherInfo.__init__]: validation, then the folder *)

(** [__init__] once the configuration is loaded. *)
Lemma init_run (load_config : string → result Config.AppConfig)
    (refuses : list string → option exn)
    (config_path : string) (config : Config.AppConfig) (t : Fs.Tree) :
  load_config config_path = Return config →
  FolderWatcherInfo_init load_config refuses config_path t
  = let fw := Config.folder_watcher config in
    if negb (path_given (Config.folder_path fw)) then (Raise ValueError, t)
    else match Fs.mkdir refuses
                 (Fs.Path (default "" (Config.folder_path fw))) t with
         | (Return _, t') =>
             (Return {| folder_path := default "" (Config.folder_path fw);
                        sleep_time := Config.sleep_time fw;
                        ffnet_disable := Config.ffnet_disable fw |}, t')
         | (Raise e, t') => (Raise e, t')
         end.
Proof.
  intros Hload. unfold FolderWatcherInfo_init.
  unfold mbind, M_bind at 1. rewrite Hload. simpl.
  by destruct (path_given _).
Qed.

(** C8, counterexample: the configured path names a regular file;
    [mkdir(parents=True, exist_ok=True)] raises [FileExistsError] and
    [__init__] lets it through, although the path is not empty. *)
Lemma init_raises_on_regular_file :
  FolderWatcherInfo_init (ex_config (Some "urls")) no_refusal "config.toml"
    blocked_tree
  = (Raise FileExistsError, blocked_tree)
  ∧ ¬ raises_iff_path_missing (ex_config (Some "urls")) no_refusal
        "config.toml" blocked_tree.
Proof.
  assert (FolderWatcherInfo_init (ex_config (Some "urls")) no_refusal
            "config.toml" blocked_tree
          = (Raise FileExistsError, blocked_tree)) as Hrun
    by by vm_compute.
  split; [exact Hrun|].
  intros Hiff. destruct (Hiff _ eq_refl) as [Hraise _].
  rewrite Hrun in Hraise. by specialize (Hraise (ex_intro _ _ eq_refl)).
Qed.

(** A path that is given can make the construction raise [ValueError]
    too: [os.mkdir] raises it on a path with an embedded NUL
    character. *)
Example init_raises_ValueError_on_nul_path :
  path_given (Some nul_path) = true
  ∧ FolderWatcherInfo_init (ex_config (Some nul_path)) no_refusal
      "config.toml" tmp_tree
    = (Raise ValueError, tmp_tree).
Proof. by vm_compute. Qed.

(** A directory that may not be written: [os.mkdir] raises
    [PermissionError] below it, and so does the construction. *)
Example init_raises_in_unwritable_directory :
  FolderWatcherInfo_init (ex_config (Some "/tmp/url_folder"))
    (λ q, if decide (q = ["tmp"; "url_folder"])
          then Some PermissionError else None)
    "config.toml" tmp_tree
  = (Raise PermissionError, tmp_tree).
Proof. by vm_compute. Qed.

(** C8, as the code has it: once the configuration is loaded, a folder
    path that is missing or empty makes the construction raise
    [ValueError] before anything is created.  With a path, the
    construction raises exactly what [mkdir(parents=True, exist_ok=True)]
    raises on it, returns when [mkdir] returns, and leaves the tree
    [mkdir] leaves.  When moreover no component of the path is a regular
    file and [os.mkdir] has no reason of its own to fail on the path
    (permissions, length of a name, an embedded NUL character), the
    construction succeeds, the folder and the directories above it
    exist afterwards, nothing that existed is lost, and constructing
    again succeeds and changes nothing; when the folder exists already
    the construction succeeds and changes nothing. *)
Theorem init_validates_then_creates_folder
    (load_config : string → result Config.AppConfig)
    (refuses : list string → option exn)
    (config_path : string) (config : Config.AppConfig) (t : Fs.Tree) :
  load_config config_path = Return config →
  let fp := Config.folder_path (Config.folder_watcher config) in
  let p := Fs.Path (default "" fp) in
  let init := FolderWatcherInfo_init load_config refuses config_path in
  (path_given fp = false → init t = (Raise ValueError, t))
  ∧ (path_given fp = true →
     (init t).2 = (Fs.mkdir refuses p t).2
     ∧ (∀ e, (init t).1 = Raise e ↔ (Fs.mkdir refuses p t).1 = Raise e)
     ∧ ((∃ info, (init t).1 = Return info)
        ↔ (Fs.mkdir refuses p t).1 = Return tt))
  ∧ (path_given fp = true → Fs.accepted refuses p → Fs.well_formed t →
     Forall (λ q, t !! q ≠ Some Fs.RegularFile) (Fs.ancestors p) →
     ∃ info t',
       init t = (Return info, t')
       ∧ folder_path info = default "" fp
       ∧ Forall (λ q, t' !! q = Some Fs.Directory) (Fs.ancestors p)
       ∧ t ⊆ t'
       ∧ init t' = (Return info, t'))
  ∧ (path_given fp = true → Fs.accepted refuses p →
     Forall (λ q, t !! q = Some Fs.Directory) (Fs.ancestors p) →
     ∃ info, init t = (Return info, t)).
Proof.
  intros Hload fp p init. subst init. cbv beta.
  rewrite !(init_run _ _ _ _ _ Hload). cbv zeta.
  change (Config.folder_path (Config.folder_watcher config)) with fp.
  change (Fs.Path (default "" fp)) with p.
  destruct (path_given fp) eqn:Hgiven; simpl.
  - split_and!; try done.
    + intros _.
      destruct (Fs.mkdir refuses p t) as [[[]|e] t1] eqn:Hmk; simpl.
      * split_and!; [done| |].
        -- intros e. split; discriminate.
        -- split; [done|]. intros _. by eexists.
      * split_and!; [done|intros e0; split; by intros [= ->]|].
        split; [by intros [? ?]|discriminate].
    + intros _ Hacc Hwf Hfree. unfold Fs.accepted, Fs.ancestors, Fs.mkdir in *.
      destruct (mkdir_parents_creates _ _ _ Hacc Hwf Hfree)
        as (t' & Hrun & Hdir & Hsub & Hwf' & _).
      pose proof (well_formed_ancestors _ _ Hwf' Hdir) as Hdirs.
      rewrite Hrun. eexists _, t'. split_and!; try done.
      rewrite (init_run _ _ _ _ _ Hload). cbv zeta.
      change (Config.folder_path (Config.folder_watcher config)) with fp.
      change (Fs.Path (default "" fp)) with p. rewrite Hgiven.
      simpl. unfold Fs.mkdir.
      by rewrite (mkdir_parents_exists _ _ _ Hacc Hdirs).
    + intros _ Hacc Hdirs. unfold Fs.accepted, Fs.ancestors, Fs.mkdir in *.
      rewrite (mkdir_parents_exists _ _ _ Hacc Hdirs). by eexists.
  - by split_and!.
Qed.

Lemma init_validates_then_creates_folder_witness :
  ∃ info t',
    FolderWatcherInfo_init (ex_config (Some "/tmp/url_folder")) no_refusal
      "config.toml" tmp_tree = (Return info, t')
    ∧ folder_path info = "/tmp/url_folder"
    ∧ Forall (λ q, t' !! q = Some Fs.Directory)
             (Fs.ancestors ["tmp"; "url_folder"])
    ∧ tmp_tree ⊆ t'
    ∧ FolderWatcherInfo_init (ex_config (Some "/tmp/url_folder")) no_refusal
        "config.toml" t' = (Return info, t').
Proof.
  destruct (init_validates_then_creates_folder
              (ex_config (Some "/tmp/url_folder")) no_refusal "config.toml" _
              tmp_tree eq_refl) as (_ & _ & Hcreate & _).
  apply Hcreate.
  - reflexivity.
  - apply (bool_decide_unpack _). vm_compute. exact I.
  - apply (bool_decide_unpack _). vm_compute. exact I.
  - apply (bool_decide_unpack _). vm_compute. exact I.
Defined.


(** * Further properties *)

(** ** [str.strip] *)

Lemma lstrip_head (s : string) :
  Text.lstrip s = ""
  ∨ ∃ c t, Text.lstrip s = String c t ∧ Text.isspace c = false.
Proof.
  induction s as [|c s IH]; simpl; [by left|].
  destruct (Text.isspace c) eqn:Hc; [done|]. right. by exists c, s.
Qed.

Lemma rstrip_keeps_head (c : ascii) (t : string) :
  Text.isspace c = false → ∃ r, Text.rstrip (String c t) = String c r.
Proof.
  intros Hc. simpl. destruct (Text.rstrip t); rewrite ?Hc; by eexists.
Qed.

Lemma rstrip_idempotent (s : string) :
  Text.rstrip (Text.rstrip s) = Text.rstrip s.
Proof.
  induction s as [|c s IH]; [done|]. simpl.
  destruct (Text.rstrip s) as [|c' r] eqn:Hr.
  - destruct (Text.isspace c) eqn:Hc; [done|]. simpl. by rewrite Hc.
  - change (Text.rstrip (String c (String c' r))) with
      (match Text.rstrip (String c' r) with
       | EmptyString => if Text.isspace c then EmptyString else String c EmptyString
       | r' => String c r'
       end).
    by rewrite IH.
Qed.

Lemma strip_idempotent (s : string) : Text.strip (Text.strip s) = Text.strip s.
Proof.
  unfold Text.strip.
  destruct (lstrip_head s) as [->|(c & t & -> & Hc)]; [done|].
  destruct (rstrip_keeps_head c t Hc) as [r Hr].
  rewrite Hr. simpl Text.lstrip. rewrite Hc, <- Hr. apply rstrip_idempotent.
Qed.

Lemma contribution_stripped (f : File) : Forall stripped (contribution f).
Proof.
  unfold contribution.
  destruct (readable f); simpl; [|constructor].
  destruct (Text.truthy (Text.strip (text f))) eqn:Ht; constructor; [|constructor].
  split; [done|apply strip_idempotent].
Qed.

(** ** [get_urls] on any folder *)

Lemma get_urls_file_step (name : string) (urls : list string) (w : World) :
  ∃ evs,
    get_urls_file name (urls, w)
    = (Return tt,
       (urls ++ urls_in name (folder w),
        {| folder := if eaten name (folder w)
                     then remove_file name (folder w) else folder w;
           scandir_error := scandir_error w;
           trace := trace w ++ evs |}))
    ∧ Forall (λ ev, is_debug_log ev) evs.
Proof.
  unfold get_urls_file, try_except, urls_in, eaten, contribution, consumed.
  unfold mbind, M_bind, fmap, M_fmap, in_world, open_read, unlink, urls_append,
    log_debug, emit, mret, M_ret, set_folder; simpl.
  destruct (lookup_file name (folder w)) as [f|] eqn:Hf; simpl;
    [destruct (readable f); simpl;
     [destruct (Text.truthy (Text.strip (text f))); simpl; rewrite Hf;
      destruct (removable f); simpl|]|];
    rewrite ?app_nil_r, <- ?app_assoc; eexists;
    (split; [reflexivity|by repeat constructor]).
Qed.

(** The loop of [get_urls] over any sequence of names. *)
Lemma get_urls_loop_general (names : list string) :
  ∀ (urls : list string) (w : World), ∃ added d' evs,
    for_each names get_urls_file (urls, w)
    = (Return tt,
       (urls ++ added,
        {| folder := d'; scandir_error := scandir_error w;
           trace := trace w ++ evs |}))
    ∧ Forall stripped added
    ∧ d' `sublist_of` folder w
    ∧ (Forall (λ n, is_url_file n) names →
       filter (λ e, ¬ is_url_file e.1) d'
       = filter (λ e, ¬ is_url_file e.1) (folder w))
    ∧ Forall (λ ev, is_debug_log ev) evs.
Proof.
  induction names as [|n ns IH]; intros urls w.
  - exists [], (folder w), []. simpl. unfold mret, M_ret.
    rewrite !app_nil_r. destruct w; simpl. by repeat split.
  - destruct (get_urls_file_step n urls w) as (evs1 & Hrun & Hdebug1).
    simpl. unfold mbind, M_bind at 1. rewrite Hrun.
    match goal with |- context [for_each ns get_urls_file (?u, ?w1)] =>
      destruct (IH u w1) as (added & d' & evs2 & Hrest & Hstr & Hsub & Hkeep
                             & Hdebug2) end.
    rewrite Hrest. cbn [folder scandir_error trace] in *.
    exists (urls_in n (folder w) ++ added), d', (evs1 ++ evs2).
    rewrite <- !app_assoc. split_and!.
    + done.
    + apply Forall_app. split; [|done]. unfold urls_in.
      destruct (lookup_file n (folder w)); [apply contribution_stripped|constructor].
    + etrans; [exact Hsub|].
      destruct (eaten n (folder w)); [apply sublist_filter|done].
    + intros [Hn Hns]%Forall_cons. rewrite (Hkeep Hns).
      destruct (eaten n (folder w)); [|done].
      unfold remove_file. apply list_filter_filter_l.
      intros [m f] Hm Heq. simpl in *. subst m. by apply Hm.
    + apply Forall_app. by split.
Qed.

Lemma get_urls_general (w : World) :
  (scandir_error w = true ∧ get_urls w = (Raise OSError, w))
  ∨ (scandir_error w = false ∧
     ∃ urls d' evs,
       get_urls w
       = (Return urls, {| folder := d'; scandir_error := false;
                          trace := trace w ++ evs |})
       ∧ Forall stripped urls
       ∧ d' `sublist_of` folder w
       ∧ filter (λ e, ¬ is_url_file e.1) d'
         = filter (λ e, ¬ is_url_file e.1) (folder w)
       ∧ Forall (λ ev, is_debug_log ev) evs).
Proof.
  destruct (scandir_error w) eqn:Hscan.
  - left. split; [done|]. by apply get_urls_scandir_error.
  - right. split; [done|].
    destruct (get_urls_loop_general (url_files (folder w)) [] w)
      as (urls & d' & evs & Hloop & Hstr & Hsub & Hkeep & Hdebug).
    exists urls, d', evs.
    unfold get_urls, mbind, M_bind, in_world, glob. simpl.
    rewrite Hscan, Hloop. simpl. rewrite Hscan. split_and!; try done.
    apply Hkeep. unfold url_files. apply Forall_forall.
    by intros n [Hn _]%list_elem_of_filter.
Qed.

(** X1: every URL that [get_urls] returns is non-empty and carries no
    whitespace at either end; the only exception [get_urls] raises is
    the one of a failed scan. *)
Theorem get_urls_returns_stripped_urls (w : World) :
  match (get_urls w).1 with
  | Return urls => Forall stripped urls
  | Raise e => e = OSError ∧ scandir_error w = true
  end.
Proof.
  destruct (get_urls_general w) as [[Hscan ->]|[_ (urls & d' & evs & -> & H & _)]];
    simpl; auto.
Qed.

(** X2: [get_urls] creates and changes no entry of the folder, and the
    entries whose name does not end in ".url" all stay, in their order:
    what is left is a sublist of what was there, with the same
    non-.url entries. *)
Theorem get_urls_touches_only_url_files (w : World) :
  folder (get_urls w).2 `sublist_of` folder w
  ∧ filter (λ e, ¬ is_url_file e.1) (folder (get_urls w).2)
    = filter (λ e, ¬ is_url_file e.1) (folder w)
  ∧ scandir_error (get_urls w).2 = scandir_error w.
Proof.
  destruct (get_urls_general w)
    as [[Hscan ->]|[Hscan (urls & d' & evs & -> & _ & Hsub & Hkeep & _)]];
    simpl; auto.
Qed.

(** X3: [get_urls] has no effect on the collaborators but debug lines
    of the log: nothing is notified, put on a queue or slept, and the
    events that were there stay. *)
Theorem get_urls_only_logs_debug (w : World) :
  ∃ evs, trace (get_urls w).2 = trace w ++ evs
         ∧ Forall (λ ev, is_debug_log ev) evs.
Proof.
  destruct (get_urls_general w)
    as [[Hscan ->]|[Hscan (urls & d' & evs & -> & _ & _ & _ & Hdebug)]]; simpl.
  - exists []. by rewrite app_nil_r.
  - by exists evs.
Qed.

Lemma flat_map_filter_sublist {A B : Type} (g : A → list B) (Q : A → Prop)
    `{∀ x, Decision (Q x)} (l : list A) :
  flat_map g (filter Q l) `sublist_of` flat_map g l.
Proof.
  induction l as [|x l IH]; [done|].
  rewrite filter_cons. destruct (decide (Q x)); simpl.
  - by apply sublist_app.
  - by apply sublist_inserts_l.
Qed.

(** X4: a second call of [get_urls], with nothing changed in between,
    deletes nothing more and returns again, in order, URLs that the
    first call returned: those of the files that stayed.  A .url file
    that can be read but not unlinked has its URL returned by both
    calls. *)
Theorem get_urls_returns_stuck_files_again (w : World) :
  scandir_error w = false → NoDup (folder w).*1 →
  ∃ urls w' urls2 w'',
    get_urls w = (Return urls, w')
    ∧ get_urls w' = (Return urls2, w'')
    ∧ folder w'' = folder w'
    ∧ urls2 `sublist_of` urls
    ∧ ∀ name f, (name, f) ∈ folder w → is_url_file name →
        readable f = true → removable f = false →
        Text.truthy (Text.strip (text f)) = true →
        Text.strip (text f) ∈ urls ∧ Text.strip (text f) ∈ urls2.
Proof.
  intros Hscan Hnd.
  destruct (get_urls_run w Hscan Hnd) as [evs Hrun].
  pose proof (fmap_fst_filter
                (λ n, ¬ (is_url_file n ∧ eaten n (folder w))) (folder w))
    as Hnames.
  cbv beta in Hnames.
  remember (filter (λ e : string * File,
                      ¬ (is_url_file e.1 ∧ eaten e.1 (folder w))) (folder w))
    as d' eqn:Hd'.
  assert (NoDup d'.*1) as Hnd'.
  { rewrite Hnames. by apply NoDup_filter. }
  assert (∀ n, ¬ (is_url_file n ∧ eaten n (folder w)) →
               lookup_file n d' = lookup_file n (folder w)) as Hlook.
  { intros n Hn. rewrite Hd'.
    pose proof (lookup_filter_name
                  (λ m, ¬ (is_url_file m ∧ eaten m (folder w))) n (folder w))
      as Hkeep.
    cbv beta in Hkeep. rewrite Hkeep. by rewrite decide_True. }
  destruct (get_urls_run {| folder := d'; scandir_error := false;
                            trace := trace w ++ evs |} eq_refl Hnd')
    as [evs2 Hrun2].
  cbn [folder trace] in Hrun2.
  assert (filter (λ e : string * File, ¬ (is_url_file e.1 ∧ eaten e.1 d')) d'
          = d') as Hfix.
  { apply filter_all_elem. intros [n f] Hin [Hurl Heat]. simpl in *.
    rewrite Hd' in Hin. apply list_elem_of_filter in Hin as [Hk _].
    simpl in Hk. apply Hk.
    split; [done|]. unfold eaten in *. by rewrite <- (Hlook n Hk). }
  assert (flat_map (λ n, urls_in n d') (url_files d')
          = flat_map (λ n, urls_in n (folder w))
              (filter (λ n, ¬ (is_url_file n ∧ eaten n (folder w)))
                      (url_files (folder w))))
    as Hurls2.
  { unfold url_files. rewrite Hnames, filter_swap. apply flat_map_ext_elem.
    intros n [Hk _]%list_elem_of_filter. unfold urls_in. by rewrite Hlook. }
  rewrite Hfix, Hurls2 in Hrun2.
  eexists _, _, _, _. split_and!; [exact Hrun|exact Hrun2|done| |].
  - apply flat_map_filter_sublist.
  - intros name f Hin Hurl Hr Hrm Ht.
    pose proof (lookup_file_NoDup _ _ _ Hnd Hin) as Hf.
    assert (Text.strip (text f) ∈ urls_in name (folder w)) as Hmine.
    { unfold urls_in, contribution. rewrite Hf. simpl. rewrite Hr, Ht. left. }
    assert (name ∈ url_files (folder w)) as Hname.
    { apply elem_of_url_files. split; [done|].
      apply list_elem_of_fmap. by exists (name, f). }
    split; apply list_elem_of_In, in_flat_map; exists name;
      (split; [apply list_elem_of_In|by apply list_elem_of_In]); [done|].
    apply list_elem_of_filter. split; [|done].
    intros [_ Heat]. unfold eaten, consumed in Heat. rewrite Hf in Heat.
    simpl in Heat. by rewrite Hr, Hrm in Heat.
Qed.

Lemma get_urls_returns_stuck_files_again_witness :
  ∃ urls w' urls2 w'',
    get_urls stuck_world = (Return urls, w')
    ∧ get_urls w' = (Return urls2, w'')
    ∧ folder w'' = folder w'
    ∧ urls2 `sublist_of` urls
    ∧ ∀ name f, (name, f) ∈ folder stuck_world → is_url_file name →
        readable f = true → removable f = false →
        Text.truthy (Text.strip (text f)) = true →
        Text.strip (text f) ∈ urls ∧ Text.strip (text f) ∈ urls2.
Proof.
  apply (get_urls_returns_stuck_files_again stuck_world).
  - reflexivity.
  - apply (bool_decide_unpack _). vm_compute. exact I.
Defined.

(** ** Dispatch: where deliveries come from and where failures go *)

Lemma dict_get_queue (queues : gmap string Py.value) (k : string) (q : nat) :
  Py.dict_get queues k = Py.PyQueue q → queues !! k = Some (Py.PyQueue q).
Proof.
  unfold Py.dict_get. destruct (queues !! k) as [v|]; simpl; [|done].
  by intros ->.
Qed.

Section DispatcherFurther.

Variable generate_FanficInfo_from_url : string → result FanficInfo.
Variable folder_info : FolderWatcherInfo.
Variable notification_info : option NotificationWrapper.
Variable queues : gmap string Py.value.

Abbreviation process :=
  (process_url generate_FanficInfo_from_url folder_info notification_info queues).
Abbreviation events_for :=
  (url_events generate_FanficInfo_from_url folder_info notification_info queues).

Lemma put_of_url (u : string) (q : nat) (item : FanficInfo) :
  Put q item ∈ events_for u →
  generate_FanficInfo_from_url u = Return item
  ∧ bool_decide (site item = "ffnet") && ffnet_disable folder_info = false
  ∧ (queues !! site item = Some (Py.PyQueue q)
     ∨ (Py.truthy (Py.dict_get queues (site item)) = false
        ∧ queues !! "other" = Some (Py.PyQueue q))).
Proof.
  run_url.
  destruct (generate_FanficInfo_from_url u) as [ff|e]; simpl;
    [|intros Hin; pick_event Hin].
  destruct (bool_decide (site ff = "ffnet") && ffnet_disable folder_info)
    eqn:Hover; simpl.
  - destruct notification_info as [n|]; simpl; [|intros Hin; pick_event Hin].
    destruct (send_notification_raises n _ _ _); simpl;
      intros Hin; pick_event Hin.
  - destruct (Py.dict_get queues (site ff)) as [|z|q1] eqn:Hsite; simpl.
    + destruct (Py.dict_get queues "other") as [|z|q2] eqn:Hother; simpl;
        split_queues; intros Hin; pick_event Hin.
      injection Hin as -> ->. split_and!; [done|done|].
      right. rewrite Hsite. split; [done|]. by apply dict_get_queue.
    + destruct (z =? 0) eqn:Hz; simpl;
        [|split_queues; intros Hin; pick_event Hin].
      destruct (Py.dict_get queues "other") as [|z2|q2] eqn:Hother; simpl;
        split_queues; intros Hin; pick_event Hin.
      injection Hin as -> ->. split_and!; [done|done|].
      right. rewrite Hsite. simpl. split; [by rewrite Hz|].
      by apply dict_get_queue.
    + intros Hin; pick_event Hin. injection Hin as -> ->.
      split_and!; [done|done|]. left. by apply dict_get_queue.
Qed.

Lemma notify_of_url (u title body tag : string) :
  Notify title body tag ∈ events_for u →
  ∃ fanfic n,
    generate_FanficInfo_from_url u = Return fanfic
    ∧ site fanfic = "ffnet" ∧ ffnet_disable folder_info = true
    ∧ notification_info = Some n
    ∧ title = "New Fanfiction Download"
    ∧ body = url fanfic ∧ tag = site fanfic.
Proof.
  run_url.
  destruct (generate_FanficInfo_from_url u) as [ff|e]; simpl;
    [|intros Hin; pick_event Hin].
  destruct (bool_decide (site ff = "ffnet") && ffnet_disable folder_info)
    eqn:Hover; simpl.
  - apply andb_true_iff in Hover as [Hsite%bool_decide_eq_true Hoff].
    destruct notification_info as [n|]; simpl; [|intros Hin; pick_event Hin].
    destruct (send_notification_raises n _ _ _); simpl;
      intros Hin; pick_event Hin.
    injection Hin as -> -> ->. by exists ff, n.
  - destruct (Py.dict_get queues (site ff)), (Py.dict_get queues "other");
      simpl; split_queues; intros Hin; pick_event Hin.
Qed.

Lemma event_of_batch (urls : list string) (w : World) (ev : Event) :
  ev ∈ new_events w (for_each urls process w).2 →
  ∃ u, u ∈ urls ∧ ev ∈ events_for u.
Proof.
  rewrite (proj2 (process_batch_events _ _ _ _ _ _)).
  intros (u & Hu & Hev)%list_elem_of_In%in_flat_map.
  exists u. by split; apply list_elem_of_In.
Qed.

(** X5: whatever a batch puts on a queue is the [FanficInfo] that the
    classifier returned for a URL of that batch, the override does not
    apply to it, and the queue is the one bound to its site, or the one
    bound to "other" when the value of the site is missing or falsy: no
    item is invented and no queue outside the two is used. *)
Theorem puts_come_from_the_batch
    (urls : list string) (w : World) (q : nat) (item : FanficInfo) :
  Put q item ∈ new_events w (for_each urls process w).2 →
  ∃ u, u ∈ urls
       ∧ generate_FanficInfo_from_url u = Return item
       ∧ bool_decide (site item = "ffnet") && ffnet_disable folder_info = false
       ∧ (queues !! site item = Some (Py.PyQueue q)
          ∨ (Py.truthy (Py.dict_get queues (site item)) = false
             ∧ queues !! "other" = Some (Py.PyQueue q))).
Proof.
  intros (u & Hu & Hev)%event_of_batch. exists u. split; [done|].
  by apply put_of_url.
Qed.

(** X6: a batch notifies only for a URL of the batch that the
    classifier gave the site "ffnet", only while ffnet processing is
    disabled and a notifier is present, and then with the fixed title,
    the normalized URL and the site; with ffnet processing enabled the
    notifier is never called. *)
Theorem notifications_come_from_the_override
    (urls : list string) (w : World) (title body tag : string) :
  Notify title body tag ∈ new_events w (for_each urls process w).2 →
  ∃ u fanfic n,
    u ∈ urls
    ∧ generate_FanficInfo_from_url u = Return fanfic
    ∧ site fanfic = "ffnet" ∧ ffnet_disable folder_info = true
    ∧ notification_info = Some n
    ∧ title = "New Fanfiction Download"
    ∧ body = url fanfic ∧ tag = site fanfic.
Proof.
  intros (u & Hu & Hev)%event_of_batch.
  destruct (notify_of_url _ _ _ _ Hev) as (ff & n & H).
  by exists u, ff, n.
Qed.

(** X7: when the notifier raises, the exception is logged by the
    handler of the item and that is all: the item is not put on a queue
    instead, not even when a queue is bound to its site. *)
Theorem failing_notifier_is_logged_not_queued
    (u : string) (fanfic : FanficInfo) (n : NotificationWrapper) (e : exn)
    (w : World) :
  generate_FanficInfo_from_url u = Return fanfic →
  site fanfic = "ffnet" → ffnet_disable folder_info = true →
  notification_info = Some n →
  send_notification_raises n "New Fanfiction Download" (url fanfic)
    (site fanfic) = Some e →
  (process u w).1 = Return tt
  ∧ new_events w (process u w).2
    = [Log DEBUG (IdentifiedSite u (site fanfic));
       Log DEBUG (ErrorProcessingUrl u e)].
Proof.
  intros Hgen Hsite Hoff Hn He.
  destruct (process_url_events generate_FanficInfo_from_url folder_info
              notification_info queues u w) as [Hret ->].
  split; [done|]. run_url. rewrite Hgen, Hoff. simpl.
  rewrite (bool_decide_eq_true_2 _ Hsite). simpl. rewrite Hn. simpl.
  by rewrite He.
Qed.

(** X8: a site bound to a truthy value that is no queue makes [put]
    raise; the exception is logged and the item is dropped: the
    fallback to "other" is taken for a falsy value only. *)
Theorem truthy_non_queue_is_logged_not_rerouted
    (u : string) (fanfic : FanficInfo) (z : Z) (w : World) :
  generate_FanficInfo_from_url u = Return fanfic →
  bool_decide (site fanfic = "ffnet") && ffnet_disable folder_info = false →
  queues !! site fanfic = Some (Py.PyInt z) → z ≠ 0 →
  (process u w).1 = Return tt
  ∧ new_events w (process u w).2
    = [Log DEBUG (IdentifiedSite u (site fanfic));
       Log DEBUG (ErrorProcessingUrl u AttributeError)].
Proof.
  intros Hgen Hnot Hsite Hz.
  destruct (process_url_events generate_FanficInfo_from_url folder_info
              notification_info queues u w) as [Hret ->].
  assert (Py.dict_get queues (site fanfic) = Py.PyInt z) as Hget
    by (unfold Py.dict_get; by rewrite Hsite).
  split; [done|]. run_url. rewrite Hgen. simpl. rewrite Hnot, !Hget. simpl.
  rewrite (proj2 (Z.eqb_neq z 0) Hz). simpl.
  by rewrite (proj2 (Z.eqb_neq z 0) Hz).
Qed.

(** X9: which files an iteration of the loop deletes is decided by the
    extractor alone: whatever happens to the URLs afterwards
    (classification failure, missing queue, failing notifier, even a
    sleep that raises), the folder at the end of the iteration is the
    folder that [get_urls] left. *)
Theorem poll_cycle_folder_is_that_of_get_urls (w : World) :
  folder (poll_cycle generate_FanficInfo_from_url folder_info
            notification_info queues w).2 = folder (get_urls w).2
  ∧ scandir_error (poll_cycle generate_FanficInfo_from_url folder_info
                     notification_info queues w).2
    = scandir_error (get_urls w).2.
Proof.
  assert (∃ r t,
            poll_cycle generate_FanficInfo_from_url folder_info
              notification_info queues w
            = (r, {| folder := folder (get_urls w).2;
                     scandir_error := scandir_error (get_urls w).2;
                     trace := t |})) as (r & t & ->); [|done].
  unfold poll_cycle, mbind, M_bind, try_except.
  destruct (get_urls w) as [[urls|e] w1]; simpl.
  - rewrite process_batch_run. unfold sleep, raise, emit.
    destruct (sleep_time folder_info <? 0); simpl; [by eexists _, _|].
    destruct (sleep_max <? sleep_time folder_info); simpl; by eexists _, _.
  - unfold log_debug, sleep, raise, emit. simpl.
    destruct (sleep_time folder_info <? 0); simpl; [by eexists _, _|].
    destruct (sleep_max <? sleep_time folder_info); simpl; by eexists _, _.
Qed.

(** X10: the file is deleted before its URL is classified, and nothing
    brings it back: a valid file whose URL the classifier rejects is
    gone at the end of the iteration, the rejection is logged in it, and
    processing its URL delivers nothing; this holds whether the sleep
    that ends the iteration returns or raises. *)
Theorem rejected_url_is_lost
    (w : World) (name : string) (f : File) (e : exn) :
  scandir_error w = false → NoDup (folder w).*1 →
  (name, f) ∈ folder w → is_url_file name → valid_file f →
  generate_FanficInfo_from_url (Text.strip (text f)) = Raise e →
  let w' := (poll_cycle generate_FanficInfo_from_url folder_info
               notification_info queues w).2 in
  lookup_file name (folder w') = None
  ∧ Log DEBUG (ErrorProcessingUrl (Text.strip (text f)) e) ∈ new_events w w'
  ∧ deliveries (events_for (Text.strip (text f))) = [].
Proof.
  intros Hscan Hnd Hin Hurl Hvalid Hrej w'.
  destruct (get_urls_run w Hscan Hnd) as [evs Hrun].
  pose proof (lookup_file_NoDup _ _ _ Hnd Hin) as Hf.
  apply andb_prop_elim in Hvalid as [[Hr Hrm]%andb_prop_elim Ht].
  apply Is_true_eq_true in Hr, Hrm, Ht.
  assert (events_for (Text.strip (text f))
          = [Log DEBUG (ErrorProcessingUrl (Text.strip (text f)) e)]) as Hevs.
  { run_url. by rewrite Hrej. }
  assert (lookup_file name
            (filter (λ x, ¬ (is_url_file x.1 ∧ eaten x.1 (folder w)))
                    (folder w)) = None) as Hgone.
  { pose proof (lookup_filter_name
                  (λ n, ¬ (is_url_file n ∧ eaten n (folder w))) name (folder w))
      as Hkeep.
    cbv beta in Hkeep. rewrite Hkeep. rewrite decide_False; [done|].
    intros Hk. apply Hk. split; [done|].
    unfold eaten, consumed. rewrite Hf. simpl. by rewrite Hr, Hrm. }
  assert (Log DEBUG (ErrorProcessingUrl (Text.strip (text f)) e)
          ∈ flat_map events_for
              (flat_map (λ n, urls_in n (folder w)) (url_files (folder w))))
    as Hlog.
  { apply list_elem_of_In, in_flat_map. exists (Text.strip (text f)). split.
    - apply in_flat_map. exists name. split.
      + apply list_elem_of_In, elem_of_url_files. split; [done|].
        apply list_elem_of_fmap. by exists (name, f).
      + unfold urls_in, contribution. rewrite Hf. simpl. rewrite Hr, Ht.
        by left.
    - rewrite Hevs. by left. }
  assert (∃ r slept,
            poll_cycle generate_FanficInfo_from_url folder_info
              notification_info queues w
            = (r, {| folder := filter (λ x, ¬ (is_url_file x.1
                                               ∧ eaten x.1 (folder w)))
                                      (folder w);
                     scandir_error := false;
                     trace := trace w
                              ++ evs
                              ++ flat_map events_for
                                   (flat_map (λ n, urls_in n (folder w))
                                             (url_files (folder w)))
                              ++ slept |})) as (r & slept & Hcycle).
  { unfold poll_cycle. unfold mbind, M_bind at 1. unfold try_except.
    unfold mbind, M_bind at 1. rewrite Hrun, process_batch_run.
    cbn [folder scandir_error trace]. unfold sleep, raise, emit.
    destruct (sleep_time folder_info <? 0);
      [|destruct (sleep_max <? sleep_time folder_info)];
      cbn [trace]; rewrite <- !app_assoc;
      (by exists (Raise ValueError), [];
          rewrite app_nil_r)
      || (by exists (Raise OverflowError), [];
             rewrite app_nil_r)
      || by eexists (Return tt), [_]. }
  subst w'. rewrite Hcycle. cbn [snd folder].
  split_and!; [done| |by rewrite Hevs].
  rewrite new_events_app.
  apply elem_of_app. right. apply elem_of_app. by left.
Qed.





End DispatcherFurther.

Lemma puts_come_from_the_batch_witness :
  ∃ u, u ∈ [ao3_url]
       ∧ ex_classify u = Return ao3_story
       ∧ bool_decide (site ao3_story = "ffnet")
         && ffnet_disable info_ffnet_enabled = false
       ∧ (ex_queues !! site ao3_story = Some (Py.PyQueue 1)
          ∨ (Py.truthy (Py.dict_get ex_queues (site ao3_story)) = false
             ∧ ex_queues !! "other" = Some (Py.PyQueue 1))).
Proof.
  apply (puts_come_from_the_batch ex_classify info_ffnet_enabled None ex_queues
           [ao3_url] blank_world 1%nat ao3_story).
  vm_compute. right. left.
Defined.

Lemma notifications_come_from_the_override_witness :
  ∃ u fanfic n,
    u ∈ [ao3_url; ffnet_url]
    ∧ ex_classify u = Return fanfic
    ∧ site fanfic = "ffnet" ∧ ffnet_disable info_ffnet_disabled = true
    ∧ Some ex_notifier = Some n
    ∧ "New Fanfiction Download" = "New Fanfiction Download"
    ∧ "https://www.fanfiction.net/s/456" = url fanfic
    ∧ "ffnet" = site fanfic.
Proof.
  apply (notifications_come_from_the_override ex_classify info_ffnet_disabled
           (Some ex_notifier) ex_queues [ao3_url; ffnet_url] blank_world).
  vm_compute. do 4 right. left.
Defined.

Lemma failing_notifier_is_logged_not_queued_witness :
  (process_url ex_classify info_ffnet_disabled (Some broken_notifier) ex_queues
     ffnet_url blank_world).1 = Return tt
  ∧ new_events blank_world
      (process_url ex_classify info_ffnet_disabled (Some broken_notifier)
         ex_queues ffnet_url blank_world).2
    = [Log DEBUG (IdentifiedSite ffnet_url "ffnet");
       Log DEBUG (ErrorProcessingUrl ffnet_url OSError)].
Proof.
  apply (failing_notifier_is_logged_not_queued ex_classify info_ffnet_disabled
           (Some broken_notifier) ex_queues ffnet_url ffnet_story
           broken_notifier OSError blank_world); reflexivity.
Defined.

Lemma truthy_non_queue_is_logged_not_rerouted_witness :
  (process_url ex_classify info_ffnet_enabled None odd_queues ao3_url
     blank_world).1 = Return tt
  ∧ new_events blank_world
      (process_url ex_classify info_ffnet_enabled None odd_queues ao3_url
         blank_world).2
    = [Log DEBUG (IdentifiedSite ao3_url "ao3");
       Log DEBUG (ErrorProcessingUrl ao3_url AttributeError)].
Proof.
  apply (truthy_non_queue_is_logged_not_rerouted ex_classify info_ffnet_enabled
           None odd_queues ao3_url ao3_story 1 blank_world);
    [reflexivity|reflexivity|reflexivity|discriminate].
Defined.

Lemma rejected_url_is_lost_witness :
  lookup_file "bad.url"
    (folder (poll_cycle ex_classify info_ffnet_enabled None ex_queues
               garbage_world).2) = None
  ∧ Log DEBUG (ErrorProcessingUrl (Text.strip (text (ex_file "not a story")))
                 ClassifierError)
    ∈ new_events garbage_world
        (poll_cycle ex_classify info_ffnet_enabled None ex_queues
           garbage_world).2
  ∧ deliveries (url_events ex_classify info_ffnet_enabled None ex_queues
                  (Text.strip (text (ex_file "not a story")))) = [].
Proof.
  apply (rejected_url_is_lost ex_classify info_ffnet_enabled None ex_queues
           garbage_world "bad.url" (ex_file "not a story") ClassifierError).
  - reflexivity.
  - apply (bool_decide_unpack _). vm_compute. exact I.
  - left.
  - vm_compute. exact I.
  - vm_compute. exact I.
  - reflexivity.
Defined.


(** ** [__init__]: what the construction leaves of the tree *)

Lemma only_adds_dirs_refl (ps : list (list string)) (t : Fs.Tree) :
  only_adds_dirs ps t t.
Proof.
  split; [done|]. intros q Hnone [x Hx]. rewrite Hnone in Hx. discriminate.
Qed.

Lemma only_adds_dirs_trans (ps : list (list string)) (t1 t2 t3 : Fs.Tree) :
  only_adds_dirs ps t1 t2 → only_adds_dirs ps t2 t3 → only_adds_dirs ps t1 t3.
Proof.
  intros [Hsub12 Hnew12] [Hsub23 Hnew23]. split; [by etrans|].
  intros q Hnone Hsome.
  destruct (t2 !! q) as [x|] eqn:H2.
  - destruct (Hnew12 q Hnone) as [Hdir Hq]; [by rewrite H2|].
    split; [|done]. eapply lookup_weaken; [|exact Hsub23]. congruence.
  - by apply Hnew23.
Qed.

Lemma only_adds_dirs_mono (ps ps' : list (list string)) (t t' : Fs.Tree) :
  ps ⊆ ps' → only_adds_dirs ps t t' → only_adds_dirs ps' t t'.
Proof.
  intros Hps [Hsub Hnew]. split; [done|].
  intros q Hnone Hsome. destruct (Hnew q Hnone Hsome). split; [done|].
  by apply Hps.
Qed.

Lemma well_formed_insert_child (p : list string) (t : Fs.Tree) :
  Fs.well_formed t → p ≠ [] → Fs.is_dir (Fs.parent p) t = true →
  t !! p = None → Fs.well_formed (<[p := Fs.Directory]> t).
Proof.
  intros Hwf Hp Hdir Hnone.
  destruct (exists_last Hp) as (par & c & ->).
  rewrite parent_snoc in Hdir. by apply well_formed_insert.
Qed.

(** [os.mkdir] changes nothing, or makes the one directory. *)
Lemma os_mkdir_step (refuses : list string → option exn)
    (p : list string) (t : Fs.Tree) :
  (Fs.os_mkdir refuses p t).2 = t
  ∨ (p ≠ [] ∧ t !! p = None ∧ Fs.is_dir (Fs.parent p) t = true
     ∧ Fs.os_mkdir refuses p t = (Return tt, <[p := Fs.Directory]> t)).
Proof.
  unfold Fs.os_mkdir.
  destruct (Fs.refusal refuses p); [by left|].
  destruct (Fs.exists_ (Fs.parent p) t); simpl; [|by left].
  destruct (Fs.is_dir (Fs.parent p) t) eqn:Hdir; simpl; [|by left].
  destruct (Fs.exists_ p t) eqn:Hex; simpl; [by left|]. right.
  unfold Fs.exists_ in Hex.
  apply orb_false_iff in Hex as [Hp%bool_decide_eq_false Hn%bool_decide_eq_false].
  split_and!; try done. by apply eq_None_not_Some.
Qed.

Lemma os_mkdir_invariant (refuses : list string → option exn)
    (p : list string) (t : Fs.Tree) :
  only_adds_dirs [p] t (Fs.os_mkdir refuses p t).2
  ∧ (Fs.well_formed t → Fs.well_formed (Fs.os_mkdir refuses p t).2).
Proof.
  destruct (os_mkdir_step refuses p t) as [->|(Hp & Hnone & Hdir & ->)].
  - split; [apply only_adds_dirs_refl|done].
  - simpl. split.
    + split; [by apply insert_subseteq|].
      intros q Hq Hsome. destruct (decide (p = q)) as [<-|Hne].
      * split; [apply lookup_insert_eq|by left].
      * rewrite lookup_insert_ne in Hsome by done.
        rewrite Hq in Hsome. by destruct Hsome.
    + intros Hwf. by apply well_formed_insert_child.
Qed.

(** The [except OSError:] clause leaves the tree as it is. *)
Lemma except_OSError_tree (ok : bool) (p : list string) (e : exn)
    (t : Fs.Tree) :
  (Fs.except_OSError ok p e t).2 = t.
Proof. unfold Fs.except_OSError. by repeat case_match. Qed.

Lemma mkdir_leaf_invariant (refuses : list string → option exn)
    (ok : bool) (p : list string) (t : Fs.Tree) :
  only_adds_dirs [p] t (Fs.mkdir_leaf refuses ok p t).2
  ∧ (Fs.well_formed t → Fs.well_formed (Fs.mkdir_leaf refuses ok p t).2).
Proof.
  pose proof (os_mkdir_invariant refuses p t) as Hos.
  unfold Fs.mkdir_leaf, try_except.
  destruct (Fs.os_mkdir refuses p t) as [[[]|e] t1]; simpl in *; [done|].
  destruct e; unfold raise; simpl; try done;
    by rewrite except_OSError_tree.
Qed.

Lemma mkdir_parents_invariant (refuses : list string → option exn)
    (rp : list string) (t : Fs.Tree) :
  only_adds_dirs (Fs.ancestors_r rp) t (Fs.mkdir_parents refuses rp t).2
  ∧ (Fs.well_formed t → Fs.well_formed (Fs.mkdir_parents refuses rp t).2).
Proof.
  revert t. induction rp as [|c rp IH]; intros t.
  - cbn [Fs.mkdir_parents Fs.ancestors_r rev]. unfold try_except.
    destruct (os_mkdir_step refuses [] t) as [Hos|(Hp & _)]; [|done].
    destruct (Fs.os_mkdir refuses [] t) as [[[]|e] t1];
      simpl in Hos; subst t1.
    { split; [apply only_adds_dirs_refl|done]. }
    destruct e; unfold raise; simpl; rewrite ?except_OSError_tree;
      (split; [apply only_adds_dirs_refl|done]).
  - pose proof (os_mkdir_invariant refuses (rev (c :: rp)) t) as [Hos Hoswf].
    cbn [Fs.mkdir_parents Fs.ancestors_r]. unfold try_except.
    destruct (Fs.os_mkdir refuses (rev (c :: rp)) t) as [[[]|e] t1];
      simpl in Hos, Hoswf.
    { split; [|done].
      eapply only_adds_dirs_mono; [|exact Hos]. incl_cons. }
    assert (only_adds_dirs (rev (c :: rp) :: Fs.ancestors_r rp) t t1) as Hos'
      by (eapply only_adds_dirs_mono; [|exact Hos]; incl_cons).
    destruct e; try (rewrite except_OSError_tree; by split).
    unfold mbind, M_bind.
    destruct (IH t1) as [Hrec Hrecwf].
    destruct (Fs.mkdir_parents refuses rp t1) as [[[]|e1] t2];
      simpl in Hrec, Hrecwf.
    + pose proof (mkdir_leaf_invariant refuses true (rev (c :: rp)) t2)
        as [Hleaf Hleafwf].
      split.
      * eapply only_adds_dirs_trans; [exact Hos'|].
        eapply only_adds_dirs_trans.
        -- eapply only_adds_dirs_mono; [|exact Hrec]. incl_cons.
        -- eapply only_adds_dirs_mono; [|exact Hleaf]. incl_cons.
      * auto.
    + simpl. split; [|auto].
      eapply only_adds_dirs_trans; [exact Hos'|].
      eapply only_adds_dirs_mono; [|exact Hrec]. incl_cons.
Qed.

Lemma init_tree (load_config : string → result Config.AppConfig)
    (refuses : list string → option exn)
    (config_path : string) (t : Fs.Tree) :
  (FolderWatcherInfo_init load_config refuses config_path t).2 = t
  ∨ ∃ config,
      load_config config_path = Return config
      ∧ (FolderWatcherInfo_init load_config refuses config_path t).2
        = (Fs.mkdir_parents refuses
             (rev (Fs.Path (default "" (Config.folder_path
                                          (Config.folder_watcher config))))) t).2.
Proof.
  destruct (load_config config_path) as [config|e] eqn:Hload.
  - rewrite (init_run _ _ _ _ _ Hload). cbv zeta.
    destruct (path_given _); simpl; [|by left].
    right. exists config. split; [done|]. unfold Fs.mkdir.
    by destruct (Fs.mkdir_parents _ _ t) as [[[]|e] t1].
  - left. unfold FolderWatcherInfo_init. unfold mbind, M_bind at 1.
    by rewrite Hload.
Qed.

(** X12: whatever the outcome of the construction (the configuration
    fails to load, the path is missing, [mkdir] raises half way or
    succeeds) and whatever the operating system refuses, no entry of
    the file system is removed or changed, and every new entry is a
    directory at the configured path or above it. *)
Theorem init_only_adds_directories_on_the_path
    (load_config : string → result Config.AppConfig)
    (refuses : list string → option exn)
    (config_path : string) (t : Fs.Tree) :
  t ⊆ (FolderWatcherInfo_init load_config refuses config_path t).2
  ∧ ∀ q, t !! q = None →
         is_Some
           ((FolderWatcherInfo_init load_config refuses config_path t).2 !! q) →
         (FolderWatcherInfo_init load_config refuses config_path t).2 !! q
         = Some Fs.Directory
         ∧ ∃ config,
             load_config config_path = Return config
             ∧ q ∈ Fs.ancestors
                     (Fs.Path (default "" (Config.folder_path
                                             (Config.folder_watcher config)))).
Proof.
  destruct (init_tree load_config refuses config_path t)
    as [->|(config & Hload & ->)].
  - split; [done|]. intros q Hnone [x Hx]. rewrite Hnone in Hx. discriminate.
  - destruct (mkdir_parents_invariant refuses
                (rev (Fs.Path (default "" (Config.folder_path
                                             (Config.folder_watcher config))))) t)
      as [[Hsub Hnew] _].
    split; [done|]. intros q Hnone Hsome.
    destruct (Hnew q Hnone Hsome) as [Hdir Hq]. split; [done|].
    by exists config.
Qed.

(** X13: the construction keeps the file system a tree: when every
    entry lay in a directory before, every entry lies in a directory
    afterwards, whatever the outcome and whatever the operating system
    refuses. *)
Theorem init_keeps_tree_well_formed
    (load_config : string → result Config.AppConfig)
    (refuses : list string → option exn)
    (config_path : string) (t : Fs.Tree) :
  Fs.well_formed t →
  Fs.well_formed (FolderWatcherInfo_init load_config refuses config_path t).2.
Proof.
  intros Hwf.
  destruct (init_tree load_config refuses config_path t)
    as [->|(config & Hload & ->)]; [done|].
  by apply mkdir_parents_invariant.
Qed.

Lemma init_keeps_tree_well_formed_witness :
  Fs.well_formed
    (FolderWatcherInfo_init (ex_config (Some "/tmp/url_folder/x")) no_refusal
       "config.toml" tmp_tree).2.
Proof.
  apply (init_keeps_tree_well_formed (ex_config (Some "/tmp/url_folder/x"))
           no_refusal "config.toml" tmp_tree).
  apply (bool_decide_unpack _). vm_compute. exact I.
Defined.

(** ** [suppress_logging] and the legacy shims *)



(** X14: at the exit of [with suppress_logging():] the disable level is
    the one found at the entry, whether the body returns or raises and
    whatever the body did to the level; the body runs with the level
    at CRITICAL, and its value or exception is that of the block. *)
Theorem suppress_logging_restores_level {A : Type}
    (body : M Logging.State A) (s : Logging.State) :
  let inside := {| Logging.disable := Logging.CRITICAL;
                   Logging.root_level := Logging.root_level s;
                   Logging.records := Logging.records s |} in
  (suppress_logging body s).1 = (body inside).1
  ∧ Logging.disable (suppress_logging body s).2 = Logging.disable s
  ∧ Logging.root_level (suppress_logging body s).2
    = Logging.root_level (body inside).2
  ∧ Logging.records (suppress_logging body s).2
    = Logging.records (body inside).2.
Proof.
  intros inside. unfold suppress_logging, try_finally, Logging.set_disable.
  unfold mbind, M_bind. simpl. fold inside.
  by destruct (body inside) as [r s1].
Qed.



(** X16: [EmailInfo.get_urls] returns the empty list and never scans
    the folder, whatever the folder holds: [get_urls_from_imap] only
    logs a warning and returns, so the fallback to the folder watcher is
    not taken and no file is read or deleted. *)
Theorem EmailInfo_get_urls_never_scans (self : Legacy.EmailInfo)
    (s : Legacy.State) :
  (Legacy.EmailInfo_get_urls self s).1 = Return []
  ∧ Legacy.core (Legacy.EmailInfo_get_urls self s).2 = Legacy.core s
  ∧ Legacy.deprecations (Legacy.EmailInfo_get_urls self s).2
    = Legacy.deprecations s
  ∧ Legacy.std_logging (Legacy.EmailInfo_get_urls self s).2
    = (Logging.warning
         "get_urls_from_imap is deprecated and no longer functional"
         (Legacy.std_logging s)).2.
Proof.
  unfold Legacy.EmailInfo_get_urls, Legacy.get_urls_from_imap, try_except.
  unfold mbind, M_bind, Legacy.in_logging, Logging.warning, Logging.log_at.
  by destruct (Logging.is_enabled_for _ _).
Qed.


